(** * harbor-view: scripts/fetch-osm-streets.py

    A shallow embedding of the street-export script and the properties
    its specification states about it.

    The script downloads a street graph, converts it to an edge table,
    keeps a fixed set of columns, flattens list-valued cells, writes
    the table as GeoJSON and prints a summary.  The table operations
    (pandas), the graph conversion (osmnx), the file system (os) and
    the writer (geopandas) are library code: each is modelled here by a
    small executable definition whose doc comment names the call it
    stands for.  [fetch_streets] itself follows the script line by
    line. *)

From stdpp Require Import gmap strings list fin_maps sorting.

Set Warnings "-register-all".

Open Scope string_scope.
Open Scope list_scope.
Open Scope nat_scope.

(** ** Cell values *)

(** Coordinates are kept as integers (OSM stores them in units of 1e-7
    degree); the script never computes with them. *)
Definition point : Type := Z * Z.

Inductive geom : Type :=
  | Point (p : point)
  | LineString (pts : list point).

(** What a cell of the edge table, or an edge attribute, can hold:
    NaN/None, a bool, a number, a string, a geometry object or a Python
    list of values. *)
Inductive value : Type :=
  | VNull
  | VBool (b : bool)
  | VNum (n : Z)
  | VStr (s : string)
  | VGeom (g : geom)
  | VList (l : list value).

(** [isinstance(v, list)] *)
Definition is_list (v : value) : bool :=
  match v with VList _ => true | _ => false end.

(** ** Tables *)

Abbreviation row := (gmap string value).

(** A cell that is not stored reads as NaN. *)
Definition cell (r : row) (c : string) : value := default VNull (r !! c).

(** Row labels: the edge table of osmnx is labelled by (u, v, key)
    triples, the node table by osmid, a reset table by 0 .. n-1. *)
Inductive Index : Type :=
  | MultiIndex (keys : list (Z * Z * Z))
  | LabelIndex (name : string) (ids : list Z)
  | RangeIndex (stop : nat).

Record DataFrame : Type := {
  columns : list string;
  index : Index;
  data : list row
}.

Definition series : Type := list value.

(** [len(df)] *)
Definition nrows (df : DataFrame) : nat := length (data df).

Inductive exn : Type :=
  | UpstreamError (msg : string)
  | ValueError
  | KeyError
  | AttributeError
  | FileExistsError
  | FileNotFoundError
  | NotADirectoryError
  | IsADirectoryError.

Inductive result (A : Type) : Type :=
  | Ok (a : A)
  | Raise (e : exn).
Arguments Ok {A} a.
Arguments Raise {A} e.

(** The cells of a row under the labels [cols]. *)
Definition take_row (cols : list string) (r : row) : row :=
  list_to_map ((fun c => (c, cell r c)) <$> cols).

(** [df[cols]] with a list of labels: [KeyError] when a label is not a
    column; otherwise the table restricted to [cols], in the order of
    [cols]. *)
Definition getitem_cols (cols : list string) (df : DataFrame) : result DataFrame :=
  if forallb (fun c => bool_decide (c ∈ columns df)) cols
  then Ok {| columns := cols; index := index df; data := take_row cols <$> data df |}
  else Raise KeyError.

(** [df[c]] with one label. *)
Definition getitem (c : string) (df : DataFrame) : series :=
  (fun r => cell r c) <$> data df.

(** [s.apply(f)] *)
Definition apply (f : value -> value) (s : series) : series := f <$> s.

(** [df[c] = s]: an existing column keeps its place, a new one is
    appended. *)
Definition setitem (c : string) (s : series) (df : DataFrame) : DataFrame :=
  {| columns := if bool_decide (c ∈ columns df) then columns df else columns df ++ [c];
     index := index df;
     data := zip_with (fun r v => <[c := v]> r) (data df) s |}.

(** [df.reset_index(drop=True)] *)
Definition reset_index (df : DataFrame) : DataFrame :=
  {| columns := columns df; index := RangeIndex (nrows df); data := data df |}.

(** ** The script's table transformation (lines 51-64) *)

Definition keep_cols : list string :=
  ["geometry"; "name"; "highway"; "lanes"; "maxspeed"; "oneway"; "length"].

(** [[c for c in keep_cols if c in edges_gdf.columns]] *)
Definition available (edges_gdf : DataFrame) : list string :=
  filter (fun c => c ∈ columns edges_gdf) keep_cols.

(** [lambda v: v[0] if isinstance(v, list) and len(v) > 0 else v] *)
Definition flatten_value (v : value) : value :=
  match v with
  | VList (x :: _) => x
  | _ => v
  end.

(** One iteration of the loop of lines 59-64. *)
Definition flatten_col (df : DataFrame) (col : string) : DataFrame :=
  if bool_decide (col = "geometry") then df
  else setitem col (apply flatten_value (getitem col df)) df.

(** The loop of lines 59-64, over the columns the table has when the
    loop starts. *)
Definition flatten (df : DataFrame) : DataFrame :=
  foldl flatten_col df (columns df).

(** Lines 51-64: selection, index reset, flattening. *)
Definition streets_of (edges_gdf : DataFrame) : result DataFrame :=
  match getitem_cols (available edges_gdf) edges_gdf with
  | Ok streets_gdf => Ok (flatten (reset_index streets_gdf))
  | Raise e => Raise e
  end.

(** ** The fetched graph and its conversion (osmnx) *)

Record Node : Type := { node_id : Z; node_x : Z; node_y : Z }.

(** An edge holds its two end nodes: networkx adds the ends of an edge
    to the node set, so the coordinate lookups of the conversion cannot
    miss.  [edge_data] is the attribute dict of the edge. *)
Record Edge : Type := {
  edge_u : Node;
  edge_v : Node;
  edge_key : Z;
  edge_data : gmap string value
}.

Record Graph : Type := { nodes : list Node; edges : list Edge }.

Definition number_of_nodes (G : Graph) : nat := length (nodes G).
Definition number_of_edges (G : Graph) : nat := length (edges G).

(** The geometry osmnx gives an edge: its own [geometry] attribute when
    it has one, else the straight line between its end nodes. *)
Definition make_geom (e : Edge) : value :=
  match edge_data e !! "geometry" with
  | Some g => g
  | None => VGeom (LineString [(node_x (edge_u e), node_y (edge_u e));
                               (node_x (edge_v e), node_y (edge_v e))])
  end.

(** The columns of the edge table: every attribute key some edge has,
    and [geometry].  The order is the library's; nothing below depends
    on it. *)
Definition edge_columns (es : list Edge) : list string :=
  remove_dups ((es ≫= fun e => (map_to_list (edge_data e)).*1) ++ ["geometry"]).

Definition edge_row (cols : list string) (e : Edge) : row :=
  take_row cols (<["geometry" := make_geom e]> (edge_data e)).

Definition edge_label (e : Edge) : Z * Z * Z :=
  (node_id (edge_u e), node_id (edge_v e), edge_key e).

Definition node_row (n : Node) : row :=
  {[ "y" := VNum (node_y n); "x" := VNum (node_x n);
     "geometry" := VGeom (Point (node_x n, node_y n)) ]}.

Definition nodes_table (G : Graph) : DataFrame :=
  {| columns := ["y"; "x"; "geometry"];
     index := LabelIndex "osmid" (node_id <$> nodes G);
     data := node_row <$> nodes G |}.

Definition edges_table (G : Graph) : DataFrame :=
  {| columns := edge_columns (edges G);
     index := MultiIndex (edge_label <$> edges G);
     data := edge_row (edge_columns (edges G)) <$> edges G |}.

(** [ox.graph_to_gdfs(G)]: one row per node and one row per edge, an
    attribute an edge lacks reads NaN; [ValueError] on a graph without
    nodes or without edges. *)
Definition graph_to_gdfs (G : Graph) : result (DataFrame * DataFrame) :=
  match nodes G, edges G with
  | [], _ | _, [] => Raise ValueError
  | _, _ => Ok (nodes_table G, edges_table G)
  end.

(** ** The written file (geopandas) *)

Record Feature : Type := {
  geometry : value;
  properties : list (string * value)
}.

(** [to_file] writes the index as properties when it is a MultiIndex or
    is named, and not when it is a plain range. *)
Definition index_props (ix : Index) (i : nat) : list (string * value) :=
  match ix with
  | MultiIndex keys =>
      match keys !! i with
      | Some (u, v, k) => [("u", VNum u); ("v", VNum v); ("key", VNum k)]
      | None => []
      end
  | LabelIndex name ids =>
      match ids !! i with
      | Some n => [(name, VNum n)]
      | None => []
      end
  | RangeIndex _ => []
  end.

Definition property_cols (df : DataFrame) : list string :=
  filter (fun c => c ≠ "geometry") (columns df).

(** One feature per row: the geometry cell is the feature's geometry,
    the other columns are its properties. *)
Definition to_features (df : DataFrame) : list Feature :=
  imap (fun i r =>
          {| geometry := cell r "geometry";
             properties := index_props (index df) i
                           ++ ((fun c => (c, cell r c)) <$> property_cols df) |})
       (data df).

(** ** The file system (os) *)

(** A path is its list of components below the repository root, which
    is the directory [os.path.dirname(__file__)/..] of the script. *)
Abbreviation path := (list string).

Inductive content : Type :=
  | FeatureCollection (features : list Feature)
  | Other (text : string).

Inductive node : Type :=
  | Dir
  | File (c : content).

Abbreviation filesystem := (gmap (list string) node).

Definition OUTPUT_DIR : path := ["public"; "assets"; "data"].
Definition OUTPUT_FILE : path := OUTPUT_DIR ++ ["harbor-streets.geojson"].

Definition isdir (fs : filesystem) (p : path) : bool :=
  match p with
  | [] => true
  | _ => match fs !! p with Some Dir => true | _ => false end
  end.

(** [os.makedirs(base/comps, exist_ok=True)] below an existing [base]:
    every missing directory on the way is created; a regular file in
    the way is an error ([FileExistsError] at the last component,
    [NotADirectoryError] before it). *)
Fixpoint makedirs_from (base : path) (comps : list string) (fs : filesystem)
  : result filesystem :=
  match comps with
  | [] => Ok fs
  | c :: rest =>
      let p := base ++ [c] in
      match fs !! p with
      | None => makedirs_from p rest (<[p := Dir]> fs)
      | Some Dir => makedirs_from p rest fs
      | Some (File _) =>
          Raise (match rest with [] => FileExistsError | _ => NotADirectoryError end)
      end
  end.

Definition makedirs_fs (p : path) (fs : filesystem) : result filesystem :=
  makedirs_from [] p fs.

(** Opening [p] for writing and storing [c]: the parent must be a
    directory and [p] must not be one; an existing file is replaced. *)
Definition write_fs (p : path) (c : content) (fs : filesystem) : result filesystem :=
  if negb (isdir fs (removelast p)) then Raise FileNotFoundError
  else if isdir fs p then Raise IsADirectoryError
  else Ok (<[p := File c]> fs).

(** ** Counting values (pandas) *)

(** The value as Python's [==] sees it, which is how pandas tells the
    counted values apart: [True] and [1] are the same, and two lists
    are the same when their elements are. *)
Inductive hkey : Type :=
  | KNull
  | KNum (n : Z)
  | KStr (s : string)
  | KGeom (g : geom)
  | KList (l : list hkey).

Global Instance point_eq_dec : EqDecision point.
Proof. unfold point. apply _. Defined.
Global Instance geom_eq_dec : EqDecision geom.
Proof. solve_decision. Defined.

Fixpoint hkey_eqb (a b : hkey) {struct a} : bool :=
  match a, b with
  | KNull, KNull => true
  | KNum n, KNum m => bool_decide (n = m)
  | KStr s, KStr t => bool_decide (s = t)
  | KGeom g, KGeom h => bool_decide (g = h)
  | KList l, KList k =>
      (fix go (l k : list hkey) {struct l} : bool :=
         match l, k with
         | [], [] => true
         | x :: l', y :: k' => hkey_eqb x y && go l' k'
         | _, _ => false
         end) l k
  | _, _ => false
  end.

Global Instance hkey_eq_dec : EqDecision hkey.
Proof.
  assert (∀ a b, hkey_eqb a b = true ↔ a = b) as Heqb.
  { fix ind 1. intros [| n | s | g | l] [| m | t | h | k]; cbn [hkey_eqb];
      try (split; [discriminate|discriminate]).
    - split; reflexivity.
    - rewrite bool_decide_eq_true. split; congruence.
    - rewrite bool_decide_eq_true. split; congruence.
    - rewrite bool_decide_eq_true. split; congruence.
    - revert k. induction l as [|x l IHl]; intros [|y k];
        try (split; [discriminate|discriminate]).
      + split; reflexivity.
      + rewrite andb_true_iff, (ind x y), IHl. split.
        * intros [-> Hl]. by injection Hl as ->.
        * intros Heq. injection Heq as -> ->. by split. }
  intros a b. destruct (hkey_eqb a b) eqn:H.
  - left. by apply Heqb.
  - right. intros Heq. apply Heqb in Heq. congruence.
Defined.

Fixpoint py_key (v : value) : hkey :=
  match v with
  | VNull => KNull
  | VBool b => KNum (if b then 1 else 0)
  | VNum n => KNum n
  | VStr s => KStr s
  | VGeom g => KGeom g
  | VList l => KList (py_key <$> l)
  end.

Definition isna (v : value) : bool :=
  match v with VNull => true | _ => false end.

(** The key under which a cell is counted; a NaN cell has none. *)
Definition hash_key (v : value) : option hkey :=
  if isna v then None else Some (py_key v).

Definition same_key (a b : value) : bool :=
  bool_decide (hash_key a = hash_key b).

(** Count one more occurrence of [v]; a value not seen before goes to
    the end. *)
Fixpoint bump (v : value) (acc : list (value * nat)) : list (value * nat) :=
  match acc with
  | [] => [(v, 1)]
  | (w, n) :: acc' =>
      if same_key w v then (w, S n) :: acc' else (w, n) :: bump v acc'
  end.

Definition tally (s : series) : list (value * nat) :=
  foldl (fun acc v => bump v acc) [] s.


(** Put [p] after the entries with a larger count and before those
    with an equal or smaller one. *)
Fixpoint insert_desc (p : value * nat) (l : list (value * nat)) : list (value * nat) :=
  match l with
  | [] => [p]
  | q :: l' => if decide (q.2 ≤ p.2) then p :: q :: l' else q :: insert_desc p l'
  end.

(** Largest count first; entries with equal counts keep their order. *)
Definition sort_desc (l : list (value * nat)) : list (value * nat) :=
  foldr insert_desc [] l.

(** [s.value_counts()]: the distinct values that are not NaN with
    their number of occurrences, largest count first, values with
    equal counts in the order in which they are first seen.  List
    cells are counted like any other value. *)
Definition value_counts (s : series) : list (value * nat) :=
  sort_desc (tally (filter (fun v => isna v = false) s)).

(** ** The script *)

(** The lines the script prints, by the [print] call they come from;
    the rendering of numbers ([{n:,}], [{size_mb:.1f}]) is left out. *)
Inductive out_line : Type :=
  | LFetching
  | LBBox (n s e w : string)
  | LBlank
  | LDownloaded (node_count edge_count : nat)
  | LWrote (feature_count : nat)
  | LPath (p : path)
  | LSize (bytes : nat)
  | LStreetTypes
  | LType (htype : value) (count : nat).

Record World : Type := {
  fs : filesystem;
  stdout : list out_line
}.

(** A computation reads and changes the world and returns a value or
    raises. *)
Definition M (A : Type) : Type := World → World * result A.

Global Instance M_ret : MRet M := fun A a w => (w, Ok a).

Global Instance M_bind : MBind M := fun A B f m w =>
  match m w with
  | (w', Ok a) => f a w'
  | (w', Raise e) => (w', Raise e)
  end.

Definition lift {A} (r : result A) : M A := fun w => (w, r).

Definition print (l : out_line) : M unit := fun w =>
  ({| fs := fs w; stdout := stdout w ++ [l] |}, Ok tt).

Definition on_fs (f : filesystem → result filesystem) : M unit := fun w =>
  match f (fs w) with
  | Ok fs' => ({| fs := fs'; stdout := stdout w |}, Ok tt)
  | Raise e => (w, Raise e)
  end.

Fixpoint for_each {A} (f : A → M unit) (l : list A) : M unit :=
  match l with
  | [] => mret tt
  | a :: l' => f a ;; for_each f l'
  end.

Definition SOUTH : string := "40.48".
Definition NORTH : string := "40.92".
Definition WEST : string := "-74.26".
Definition EAST : string := "-73.75".

Section Script.

(** The number of bytes of the GeoJSON text of a feature list; the
    encoder is the driver's. *)
Variable geojson_size : list Feature → nat.

Definition content_size (c : content) : nat :=
  match c with
  | FeatureCollection l => geojson_size l
  | Other text => String.length text
  end.

(** [os.makedirs(p, exist_ok=True)] *)
Definition makedirs (p : path) : M unit := on_fs (makedirs_fs p).

(** [df.to_file(p, driver="GeoJSON")]; a table without a geometry
    column is a plain DataFrame, which has no [to_file]. *)
Definition to_file (df : DataFrame) (p : path) : M unit :=
  if bool_decide ("geometry" ∈ columns df)
  then on_fs (write_fs p (FeatureCollection (to_features df)))
  else lift (Raise AttributeError).

(** [os.path.getsize(p)]; the model keeps no size for a directory. *)
Definition getsize (p : path) : M nat := fun w =>
  match fs w !! p with
  | Some (File c) => (w, Ok (content_size c))
  | Some Dir => (w, Ok 0)
  | None => (w, Raise FileNotFoundError)
  end.

(** [fetch_streets()]; [upstream] is what [ox.graph_from_bbox] gives
    on this run: a graph, or the failure it raises. *)
Definition fetch_streets (upstream : result Graph) : M unit :=
  print LFetching ;;
  print (LBBox NORTH SOUTH EAST WEST) ;;
  print LBlank ;;
  G ← lift upstream ;
  let node_count := number_of_nodes G in
  let edge_count := number_of_edges G in
  print (LDownloaded node_count edge_count) ;;
  '(nodes_gdf, edges_gdf) ← lift (graph_to_gdfs G) ;
  let keep := available edges_gdf in
  streets_gdf ← lift (getitem_cols keep edges_gdf) ;
  let streets_gdf := reset_index streets_gdf in
  let streets_gdf := flatten streets_gdf in
  makedirs OUTPUT_DIR ;;
  to_file streets_gdf OUTPUT_FILE ;;
  size ← getsize OUTPUT_FILE ;
  let feature_count := nrows streets_gdf in
  print (LWrote feature_count) ;;
  print (LPath OUTPUT_FILE) ;;
  print (LSize size) ;;
  if bool_decide ("highway" ∈ columns streets_gdf) then
    print LStreetTypes ;;
    let counts := value_counts (getitem "highway" streets_gdf) in
    for_each (fun '(htype, count) => print (LType htype count)) counts
  else mret tt.

(** [if __name__ == "__main__": fetch_streets()]: the exit status is 0
    when the call returns and 1 when an exception leaves it. *)
Definition main (upstream : result Graph) (w : World) : World * Z :=
  match fetch_streets upstream w with
  | (w', Ok _) => (w', 0%Z)
  | (w', Raise _) => (w', 1%Z)
  end.

End Script.

(** * Closed forms and notions used in the statements *)

(** What the loop does to one row. *)
Definition flatten_row (cols : list string) (r : row) : row :=
  foldl (fun r c => if bool_decide (c = "geometry") then r
                    else <[c := flatten_value (cell r c)]> r) r cols.

(** The closed form of lines 51-64. *)
Definition streets_row (cols : list string) (r : row) : row :=
  flatten_row cols (take_row cols r).

Definition row_feature (cols : list string) (r : row) : Feature :=
  {| geometry := cell r "geometry";
     properties := (fun c => (c, cell r c)) <$> filter (fun c => c ≠ "geometry") cols |}.

(** The columns and the features the script emits for a graph. *)
Definition out_cols (es : list Edge) : list string :=
  filter (fun c => c ∈ edge_columns es) keep_cols.

Definition out_feature (cols : list string) (e : Edge) : Feature :=
  {| geometry := make_geom e;
     properties := (fun c => (c, flatten_value (cell (edge_data e) c)))
                   <$> filter (fun c => c ≠ "geometry") cols |}.

Definition streets_table (G : Graph) : DataFrame :=
  {| columns := out_cols (edges G);
     index := RangeIndex (length (edges G));
     data := streets_row (out_cols (edges G)) <$> data (edges_table G) |}.

(** The file system once every directory from [base] down to
    [base ++ comps] exists. *)
Fixpoint dirs_from (base : path) (comps : list string) (fs : filesystem) : filesystem :=
  match comps with
  | [] => fs
  | c :: rest => dirs_from (base ++ [c]) rest (<[base ++ [c] := Dir]> fs)
  end.

Definition is_file (fs : filesystem) (p : path) : bool :=
  match fs !! p with Some (File _) => true | _ => false end.

(** The non-empty prefixes of a path. *)
Definition prefixes (p : path) : list path :=
  (fun k => take k p) <$> seq 1 (length p).

(** No regular file lies where a directory of [OUTPUT_DIR] has to be,
    and no directory lies where the output file has to be. *)
Definition writable (fs : filesystem) : bool :=
  forallb (fun p => negb (is_file fs p)) (prefixes OUTPUT_DIR)
  && negb (isdir fs OUTPUT_FILE).

Definition keys (acc : list (value * nat)) : list (option hkey) :=
  (fun p => hash_key p.1) <$> acc.



(** The value of property [k] of a feature. *)
Definition prop (f : Feature) (k : string) : option value :=
  (list_to_map (properties f) : gmap string value) !! k.

(** An edge attribute [geometry], when present, is a geometry object. *)
Definition geometry_ok (e : Edge) : bool :=
  match edge_data e !! "geometry" with
  | Some (VGeom _) | None => true
  | Some _ => false
  end.

(** Lines 30-77: what a run that reaches the write has printed. *)
Definition summary_lines (G : Graph) (bytes : nat) : list out_line :=
  [LFetching; LBBox NORTH SOUTH EAST WEST; LBlank;
   LDownloaded (number_of_nodes G) (number_of_edges G);
   LWrote (number_of_edges G); LPath OUTPUT_FILE; LSize bytes].

(** ** Sample inputs *)

Definition n1 : Node := {| node_id := 1; node_x := 0; node_y := 0 |}.
Definition n2 : Node := {| node_id := 2; node_x := 10; node_y := 0 |}.
Definition n3 : Node := {| node_id := 3; node_x := 10; node_y := 10 |}.

Definition e12 : Edge :=
  {| edge_u := n1; edge_v := n2; edge_key := 0;
     edge_data := {[ "osmid" := VNum 7;
                     "highway" := VList [VStr "residential"; VStr "tertiary"] ]} |}.
Definition e23 : Edge :=
  {| edge_u := n2; edge_v := n3; edge_key := 0;
     edge_data := {[ "osmid" := VNum 8; "highway" := VStr "primary" ]} |}.
Definition e31 : Edge :=
  {| edge_u := n3; edge_v := n1; edge_key := 0;
     edge_data := {[ "osmid" := VNum 9;
                     "geometry" := VGeom (LineString [(10, 10); (5, 6); (0, 0)]%Z) ]} |}.

(** Three edges: a list-valued [highway], a plain one, none. *)
Definition g3 : Graph := {| nodes := [n1; n2; n3]; edges := [e12; e23; e31] |}.

(** The same graph with its edges met in another order. *)
Definition g3' : Graph := {| nodes := [n3; n1; n2]; edges := [e31; e12; e23] |}.

(** One edge whose [highway] is the empty list. *)
Definition g_empty_list : Graph :=
  {| nodes := [n1; n2];
     edges := [ {| edge_u := n1; edge_v := n2; edge_key := 0;
                   edge_data := {[ "highway" := VList [] ]} |} ] |}.

(** A graph without any [highway] attribute. *)
Definition g_plain : Graph :=
  {| nodes := [n1; n2];
     edges := [ {| edge_u := n1; edge_v := n2; edge_key := 0;
                   edge_data := {[ "name" := VStr "Front Street" ]} |} ] |}.

(** An empty file system, and one that holds an older output. *)
Definition w_fresh : World := {| fs := ∅; stdout := [] |}.

Definition w_old : World :=
  {| fs := {[ ["public"] := Dir; ["public"; "assets"] := Dir;
              ["public"; "assets"; "data"] := Dir;
              OUTPUT_FILE := File (Other "stale") ]};
     stdout := [] |}.

Section RunDefs.

Variable geojson_size : list Feature → nat.

(** Lines 79-84. *)
Definition breakdown (S : DataFrame) : M unit :=
  if bool_decide ("highway" ∈ columns S) then
    print LStreetTypes ;;
    let counts := value_counts (getitem "highway" S) in
    for_each (fun '(htype, count) => print (LType htype count)) counts
  else mret tt.

(** The world after line 77 of a run that got the graph [G]. *)
Definition written (G : Graph) (w : World) : World :=
  let features := to_features (streets_table G) in
  {| fs := <[OUTPUT_FILE := File (FeatureCollection features)]>
             (dirs_from [] OUTPUT_DIR (fs w));
     stdout := stdout w ++ summary_lines G (geojson_size features) |}.

End RunDefs.

(** ** Notions used in the further properties *)

(** The count a console line reports: that of a breakdown line, none
    for the other lines. *)
Definition line_count (l : out_line) : nat :=
  match l with
  | LType _ n => n
  | _ => 0
  end.

(** The preferred attribute columns, [geometry] apart. *)
Definition attr_cols : list string :=
  filter (fun c => c ≠ "geometry") keep_cols.

(** Two edges with the same geometry and the same values of the
    preferred attributes. *)
Definition agree_on_kept (e1 e2 : Edge) : Prop :=
  make_geom e1 = make_geom e2
  ∧ Forall (fun c => edge_data e1 !! c = edge_data e2 !! c) attr_cols.

(** The edges of [g3] with other [osmid]s and an attribute the script
    does not keep. *)
Definition g3_other : Graph :=
  {| nodes := [n1; n2; n3];
     edges :=
       [ {| edge_u := n1; edge_v := n2; edge_key := 0;
            edge_data := {[ "osmid" := VNum 70; "ref" := VStr "A";
                            "highway" := VList [VStr "residential"; VStr "tertiary"] ]} |};
         {| edge_u := n2; edge_v := n3; edge_key := 1;
            edge_data := {[ "highway" := VStr "primary" ]} |};
         {| edge_u := n3; edge_v := n1; edge_key := 0;
            edge_data := {[ "osmid" := VNum 90;
                            "geometry" := VGeom (LineString [(10, 10); (5, 6); (0, 0)]%Z) ]} |} ] |}.

(** A graph without edges. *)
Definition g_no_edges : Graph := {| nodes := [n1]; edges := [] |}.

(** A file system with a regular file where the directory [public]
    has to be, and one with a directory at the path of the output
    file. *)
Definition w_blocked : World :=
  {| fs := {[ ["public"] := File (Other "x") ]}; stdout := [] |}.

Definition w_dir_at_file : World :=
  {| fs := {[ ["public"] := Dir; ["public"; "assets"] := Dir;
              ["public"; "assets"; "data"] := Dir;
              OUTPUT_FILE := Dir ]};
     stdout := [] |}.

(** One edge whose [highway] is a list that starts with a list. *)
Definition g_nested : Graph :=
  {| nodes := [n1; n2];
     edges := [ {| edge_u := n1; edge_v := n2; edge_key := 0;
                   edge_data := {[ "highway" := VList [VList [VStr "a"]; VStr "b"] ]} |} ] |}.

(** * Properties *)

(** ** Tables *)

Lemma lookup_list_to_map_graph (f : string → value) (l : list string) k :
  (list_to_map ((fun c => (c, f c)) <$> l) : gmap string value) !! k
  = if decide (k ∈ l) then Some (f k) else None.
Proof.
  induction l as [|a l IH].
  - rewrite fmap_nil, list_to_map_nil, lookup_empty.
    rewrite decide_False; [done|]. apply not_elem_of_nil.
  - rewrite fmap_cons, list_to_map_cons. cbn [fst snd].
    destruct (decide (a = k)) as [->|Hne].
    + rewrite lookup_insert_eq. rewrite decide_True; [done|]. by left.
    + rewrite lookup_insert_ne by done. rewrite IH.
      destruct (decide (k ∈ l)).
      * rewrite decide_True; [done|]. by right.
      * rewrite decide_False; [done|]. by intros [?|?]%elem_of_cons.
Qed.

Lemma lookup_take_row cols r c :
  take_row cols r !! c = if decide (c ∈ cols) then Some (cell r c) else None.
Proof. apply (lookup_list_to_map_graph (cell r)). Qed.

Lemma cell_take_row cols r c :
  c ∈ cols → cell (take_row cols r) c = cell r c.
Proof.
  intros Hc. unfold cell at 1. rewrite lookup_take_row.
  by rewrite decide_True.
Qed.

Lemma elem_of_available T c :
  c ∈ available T ↔ c ∈ keep_cols ∧ c ∈ columns T.
Proof.
  unfold available. split.
  - intros H. apply list_elem_of_filter in H. tauto.
  - intros H. apply list_elem_of_filter. tauto.
Qed.

Lemma NoDup_keep_cols : NoDup keep_cols.
Proof. compute_done. Qed.

Lemma NoDup_available T : NoDup (available T).
Proof. apply NoDup_filter, NoDup_keep_cols. Qed.

Lemma getitem_cols_available T :
  getitem_cols (available T) T
  = Ok {| columns := available T; index := index T;
          data := take_row (available T) <$> data T |}.
Proof.
  unfold getitem_cols.
  replace (forallb _ (available T)) with true; [done|].
  symmetry. apply forallb_forall. intros c Hc.
  apply bool_decide_eq_true_2. apply list_elem_of_In in Hc.
  by apply elem_of_available in Hc as [_ ?].
Qed.

Lemma setitem_apply_getitem c f df :
  c ∈ columns df →
  setitem c (apply f (getitem c df)) df
  = {| columns := columns df; index := index df;
       data := (fun r => <[c := f (cell r c)]> r) <$> data df |}.
Proof.
  intros Hc. unfold setitem, apply, getitem.
  rewrite bool_decide_true by done. f_equal.
  rewrite <- list_fmap_compose, zip_with_fmap_r, zip_with_diag. done.
Qed.

Lemma foldl_flatten_col cs df :
  (∀ c, c ∈ cs → c ∈ columns df) →
  foldl flatten_col df cs
  = {| columns := columns df; index := index df;
       data := flatten_row cs <$> data df |}.
Proof.
  revert df. induction cs as [|c cs IH]; intros df Hcs; simpl.
  - destruct df; simpl. f_equal. by rewrite list_fmap_id.
  - rewrite IH.
    + unfold flatten_col. case_bool_decide as Hg.
      * f_equal. apply list_fmap_ext. intros _ r _. simpl.
        by rewrite bool_decide_true.
      * rewrite setitem_apply_getitem by set_solver. simpl. f_equal.
        rewrite <- list_fmap_compose. apply list_fmap_ext. intros _ r _. simpl.
        by rewrite bool_decide_false.
    + intros c' Hc'. unfold flatten_col. case_bool_decide; [set_solver|].
      rewrite setitem_apply_getitem by set_solver. simpl. set_solver.
Qed.

Lemma flatten_eq df :
  flatten df
  = {| columns := columns df; index := index df;
       data := flatten_row (columns df) <$> data df |}.
Proof. unfold flatten. by apply foldl_flatten_col. Qed.

Lemma flatten_row_cons a cols r :
  flatten_row (a :: cols) r
  = flatten_row cols (if bool_decide (a = "geometry") then r
                      else <[a := flatten_value (cell r a)]> r).
Proof. reflexivity. Qed.

Lemma cell_insert_ne (r : row) a v c :
  a ≠ c → cell (<[a := v]> r) c = cell r c.
Proof. intros Hne. unfold cell. by rewrite lookup_insert_ne. Qed.

Lemma cell_insert_eq (r : row) a v : cell (<[a := v]> r) a = v.
Proof. unfold cell. by rewrite lookup_insert_eq. Qed.

Lemma cell_flatten_row cols r c :
  NoDup cols →
  cell (flatten_row cols r) c
  = if decide (c ∈ cols ∧ c ≠ "geometry") then flatten_value (cell r c)
    else cell r c.
Proof.
  revert r. induction cols as [|a cols IH]; intros r Hnd.
  - rewrite decide_False; [done|]. intros [H _]. by apply elem_of_nil in H.
  - apply NoDup_cons in Hnd as [Ha Hnd].
    rewrite flatten_row_cons, IH by done.
    destruct (decide (a = c)) as [->|Hne].
    + rewrite (decide_False (P := c ∈ cols ∧ _)) by tauto.
      case_bool_decide as Hg.
      * rewrite decide_False; [done|]. tauto.
      * rewrite cell_insert_eq, decide_True; [done|]. split; [left|done].
    + assert (cell (if bool_decide (a = "geometry") then r
                    else <[a:=flatten_value (cell r a)]> r) c = cell r c) as ->.
      { case_bool_decide; [done|]. by apply cell_insert_ne. }
      destruct (decide (c ∈ cols ∧ c ≠ "geometry")) as [[? ?]|Hn].
      * rewrite decide_True; [done|]. split; [by right|done].
      * rewrite decide_False; [done|].
        intros [[?|?]%elem_of_cons ?]; [congruence|tauto].
Qed.

Lemma streets_of_eq T :
  streets_of T
  = Ok {| columns := available T; index := RangeIndex (nrows T);
          data := streets_row (available T) <$> data T |}.
Proof.
  unfold streets_of. rewrite getitem_cols_available, flatten_eq. simpl.
  unfold nrows. simpl. rewrite length_fmap, <- list_fmap_compose. done.
Qed.

Lemma cell_streets_row T r c :
  c ∈ available T →
  cell (streets_row (available T) r) c
  = if decide (c = "geometry") then cell r c else flatten_value (cell r c).
Proof.
  intros Hc. unfold streets_row.
  rewrite cell_flatten_row by apply NoDup_available.
  rewrite cell_take_row by done.
  destruct (decide (c = "geometry")).
  - rewrite decide_False; [done|]. tauto.
  - by rewrite decide_True.
Qed.

(** ** Features of a reset table *)

Lemma to_features_range cols n rows :
  to_features {| columns := cols; index := RangeIndex n; data := rows |}
  = row_feature cols <$> rows.
Proof.
  unfold to_features, property_cols. simpl.
  exact (imap_const (row_feature cols) rows).
Qed.

(** ** The converted edge table *)

Lemma graph_to_gdfs_ok G :
  nodes G ≠ [] → edges G ≠ [] →
  graph_to_gdfs G = Ok (nodes_table G, edges_table G).
Proof. unfold graph_to_gdfs. destruct (nodes G), (edges G); done. Qed.

Lemma elem_of_edge_columns es c :
  c ∈ edge_columns es
  ↔ c = "geometry" ∨ ∃ e, e ∈ es ∧ is_Some (edge_data e !! c).
Proof.
  unfold edge_columns. rewrite elem_of_remove_dups, elem_of_app, list_elem_of_singleton.
  rewrite list_elem_of_bind. split.
  - intros [(e & Hc & He)|?]; [|by left]. right. exists e. split; [done|].
    apply list_elem_of_fmap in Hc as ([k v] & -> & Hkv).
    apply elem_of_map_to_list in Hkv. by exists v.
  - intros [?|(e & He & v & Hv)]; [by right|]. left. exists e. split; [|done].
    apply list_elem_of_fmap. exists (c, v). split; [done|].
    by apply elem_of_map_to_list.
Qed.

Lemma geometry_in_edge_columns es : "geometry" ∈ edge_columns es.
Proof. apply elem_of_edge_columns. by left. Qed.

Lemma cell_edge_row cols e c :
  c ∈ cols →
  cell (edge_row cols e) c
  = if decide (c = "geometry") then make_geom e else cell (edge_data e) c.
Proof.
  intros Hc. unfold edge_row. rewrite cell_take_row by done.
  destruct (decide (c = "geometry")) as [->|Hne].
  - apply cell_insert_eq.
  - by apply cell_insert_ne.
Qed.

Lemma streets_of_edges_table G :
  streets_of (edges_table G) = Ok (streets_table G).
Proof.
  rewrite streets_of_eq. unfold streets_table, nrows. simpl.
  by rewrite length_fmap.
Qed.

Lemma geometry_in_out_cols es : "geometry" ∈ out_cols es.
Proof.
  apply list_elem_of_filter. split; [apply geometry_in_edge_columns|].
  unfold keep_cols. by left.
Qed.

Lemma out_cols_edge_columns es c : c ∈ out_cols es → c ∈ edge_columns es.
Proof. intros H. apply list_elem_of_filter in H. tauto. Qed.

Lemma streets_row_feature G e :
  row_feature (out_cols (edges G))
    (streets_row (out_cols (edges G)) (edge_row (edge_columns (edges G)) e))
  = out_feature (out_cols (edges G)) e.
Proof.
  unfold row_feature, out_feature. f_equal.
  - change (out_cols (edges G)) with (available (edges_table G)).
    rewrite cell_streets_row by apply geometry_in_out_cols.
    rewrite decide_True by done.
    rewrite cell_edge_row by apply geometry_in_edge_columns.
    by rewrite decide_True.
  - apply list_fmap_ext. intros i c Hc.
    apply list_elem_of_lookup_2, list_elem_of_filter in Hc as [Hne Hc].
    change (out_cols (edges G)) with (available (edges_table G)).
    rewrite cell_streets_row by done. rewrite decide_False by done.
    rewrite cell_edge_row by (by apply out_cols_edge_columns).
    by rewrite decide_False.
Qed.

Lemma to_features_streets_table G :
  to_features (streets_table G) = out_feature (out_cols (edges G)) <$> edges G.
Proof.
  unfold streets_table. rewrite to_features_range. simpl.
  rewrite <- !list_fmap_compose. apply list_fmap_ext. intros _ e _.
  apply streets_row_feature.
Qed.

(** ** The file system *)

Lemma makedirs_from_ok base comps fs :
  (∀ k, 1 ≤ k ≤ length comps → is_file fs (base ++ take k comps) = false) →
  makedirs_from base comps fs = Ok (dirs_from base comps fs).
Proof.
  revert base fs. induction comps as [|c rest IH]; intros base fs Hfs; [done|].
  cbn [makedirs_from dirs_from].
  assert (∀ fs', (∀ q, q ≠ base ++ [c] → fs' !! q = fs !! q) →
                 fs' !! (base ++ [c]) = Some Dir →
                 ∀ k, 1 ≤ k ≤ length rest →
                      is_file fs' ((base ++ [c]) ++ take k rest) = false) as Hstep.
  { intros fs' Hsame Hdir k Hk. unfold is_file.
    rewrite Hsame.
    - specialize (Hfs (S k)). unfold is_file in Hfs.
      rewrite <- (assoc_L (++)). apply Hfs. simpl. lia.
    - intros Heq. apply (f_equal length) in Heq.
      rewrite !length_app, length_take in Heq. simpl in Heq. lia. }
  pose proof (Hfs 1) as H1. unfold is_file in H1. simpl in H1.
  rewrite take_0 in H1.
  destruct (fs !! (base ++ [c])) as [[|f]|] eqn:Hlook.
  - rewrite insert_id by done. apply IH. apply Hstep; done.
  - discriminate H1. lia.
  - apply IH. apply Hstep.
    + intros q Hq. by rewrite lookup_insert_ne.
    + by rewrite lookup_insert_eq.
Qed.

Lemma dirs_from_other base comps fs q :
  (∀ k, 1 ≤ k ≤ length comps → q ≠ base ++ take k comps) →
  dirs_from base comps fs !! q = fs !! q.
Proof.
  revert base fs. induction comps as [|c rest IH]; intros base fs Hq; [done|].
  cbn [dirs_from]. rewrite IH.
  - apply lookup_insert_ne. specialize (Hq 1). simpl in Hq. rewrite take_0 in Hq.
    intros Heq. apply Hq; [lia|done].
  - intros k Hk. rewrite <- (assoc_L (++)). apply (Hq (S k)). simpl. lia.
Qed.

Lemma dirs_from_last base comps fs :
  comps ≠ [] → dirs_from base comps fs !! (base ++ comps) = Some Dir.
Proof.
  revert base fs. induction comps as [|c rest IH]; intros base fs Hne; [done|].
  cbn [dirs_from]. destruct rest as [|c' rest'].
  - simpl. by rewrite lookup_insert_eq.
  - replace (base ++ c :: c' :: rest') with ((base ++ [c]) ++ c' :: rest')
      by (by rewrite <- (assoc_L (++))).
    by apply IH.
Qed.

Lemma writable_no_file fs k :
  writable fs = true → 1 ≤ k ≤ length OUTPUT_DIR →
  is_file fs ([] ++ take k OUTPUT_DIR) = false.
Proof.
  intros [Hall _]%andb_true_iff Hk. rewrite forallb_forall in Hall.
  apply negb_true_iff, Hall, list_elem_of_In. unfold prefixes.
  apply list_elem_of_fmap. exists k. split; [done|].
  apply elem_of_seq. lia.
Qed.

Lemma makedirs_fs_writable fs :
  writable fs = true →
  makedirs_fs OUTPUT_DIR fs = Ok (dirs_from [] OUTPUT_DIR fs).
Proof.
  intros Hw. apply makedirs_from_ok. intros k Hk. by apply writable_no_file.
Qed.

Lemma write_fs_writable fs c :
  writable fs = true →
  write_fs OUTPUT_FILE c (dirs_from [] OUTPUT_DIR fs)
  = Ok (<[OUTPUT_FILE := File c]> (dirs_from [] OUTPUT_DIR fs)).
Proof.
  intros [_ Hnd%negb_true_iff]%andb_true_iff. unfold write_fs.
  assert (isdir (dirs_from [] OUTPUT_DIR fs) (removelast OUTPUT_FILE) = true) as ->.
  { change (removelast OUTPUT_FILE) with ([] ++ OUTPUT_DIR).
    unfold isdir. by rewrite dirs_from_last. }
  assert (isdir (dirs_from [] OUTPUT_DIR fs) OUTPUT_FILE = false) as ->; [|done].
  unfold isdir in *. rewrite dirs_from_other; [done|].
  intros k Hk Heq. apply (f_equal length) in Heq.
  rewrite length_app, length_take in Heq. simpl in Heq. lia.
Qed.

(** ** Runs of the script *)

Section Run.

Variable geojson_size : list Feature → nat.

Lemma flatten_reset_selected G :
  flatten (reset_index
             {| columns := available (edges_table G);
                index := index (edges_table G);
                data := take_row (available (edges_table G)) <$> data (edges_table G) |})
  = streets_table G.
Proof.
  pose proof (streets_of_edges_table G) as HS. unfold streets_of in HS.
  rewrite getitem_cols_available in HS. by injection HS.
Qed.

Lemma fetch_streets_written G w :
  nodes G ≠ [] → edges G ≠ [] → writable (fs w) = true →
  fetch_streets geojson_size (Ok G) w = breakdown (streets_table G) (written geojson_size G w).
Proof.
  intros Hn He Hw. unfold fetch_streets.
  unfold mbind, M_bind, print, lift. cbn [fs stdout].
  rewrite graph_to_gdfs_ok by done.
  rewrite getitem_cols_available. cbv beta iota.
  rewrite flatten_reset_selected.
  unfold makedirs, on_fs. cbn [fs stdout].
  rewrite makedirs_fs_writable by done.
  unfold to_file. rewrite bool_decide_true by apply geometry_in_out_cols.
  unfold on_fs. cbn [fs stdout]. rewrite write_fs_writable by done.
  unfold getsize. cbn [fs stdout]. rewrite lookup_insert_eq.
  cbn [content_size]. unfold breakdown, written, summary_lines.
  assert (nrows (streets_table G) = number_of_edges G) as ->.
  { unfold nrows, streets_table, edges_table, number_of_edges. cbn [data].
    by rewrite !length_fmap. }
  cbn [fs stdout]. rewrite <- !(assoc_L (++)). reflexivity.
Qed.

Lemma for_each_print counts w :
  for_each (fun '(htype, count) => print (LType htype count)) counts w
  = ({| fs := fs w; stdout := stdout w ++ (uncurry LType <$> counts) |}, Ok tt).
Proof.
  revert w. induction counts as [|[h n] counts IH]; intros w.
  - simpl. rewrite app_nil_r. by destruct w.
  - cbn [for_each]. unfold mbind, M_bind, print at 1. rewrite IH.
    cbn [fs stdout]. by rewrite <- (assoc_L (++)).
Qed.

Lemma breakdown_absent S w :
  "highway" ∉ columns S → breakdown S w = (w, Ok tt).
Proof. intros H. unfold breakdown. by rewrite bool_decide_false. Qed.

Lemma breakdown_present S w :
  "highway" ∈ columns S →
  breakdown S w
  = ({| fs := fs w;
        stdout := stdout w ++ LStreetTypes
                    :: (uncurry LType <$> value_counts (getitem "highway" S)) |},
     Ok tt).
Proof.
  intros H. unfold breakdown. rewrite bool_decide_true by done.
  unfold mbind, M_bind, print at 1. cbv zeta. rewrite for_each_print.
  cbn [fs stdout]. by rewrite <- (assoc_L (++)).
Qed.

Lemma breakdown_fs S w : fs (breakdown S w).1 = fs w.
Proof.
  unfold breakdown. case_bool_decide; [|done].
  unfold mbind, M_bind, print at 1. cbv zeta. by rewrite for_each_print.
Qed.

Lemma fetch_streets_fs G w :
  nodes G ≠ [] → edges G ≠ [] → writable (fs w) = true →
  fs (fetch_streets geojson_size (Ok G) w).1
  = <[OUTPUT_FILE := File (FeatureCollection (out_feature (out_cols (edges G)) <$> edges G))]>
      (dirs_from [] OUTPUT_DIR (fs w)).
Proof.
  intros Hn He Hw. rewrite fetch_streets_written, breakdown_fs by done.
  unfold written. cbn [fs]. by rewrite to_features_streets_table.
Qed.

End Run.

(** ** Counting *)









Lemma insert_desc_Permutation p l : insert_desc p l ≡ₚ p :: l.
Proof.
  induction l as [|q l IH]; [done|]. cbn [insert_desc].
  destruct (decide (q.2 ≤ p.2)); [done|]. rewrite IH. apply Permutation_swap.
Qed.

Lemma sort_desc_Permutation l : sort_desc l ≡ₚ l.
Proof.
  induction l as [|p l IH]; [done|]. unfold sort_desc in *. cbn [foldr].
  by rewrite insert_desc_Permutation, IH.
Qed.





(** ** Emitted features *)

Lemma prop_row_feature cols r k :
  prop (row_feature cols r) k
  = if decide (k ∈ cols ∧ k ≠ "geometry") then Some (cell r k) else None.
Proof.
  unfold prop, row_feature. cbn [properties].
  rewrite (lookup_list_to_map_graph (cell r)).
  destruct (decide (k ∈ filter _ cols)) as [Hin|Hni].
  - apply list_elem_of_filter in Hin. rewrite decide_True; [done|]. tauto.
  - rewrite decide_False; [done|]. intros [? ?]. apply Hni.
    apply list_elem_of_filter. tauto.
Qed.

Lemma keys_row_feature cols r :
  (properties (row_feature cols r)).*1 = filter (fun c => c ≠ "geometry") cols.
Proof.
  unfold row_feature. cbn [properties]. rewrite <- list_fmap_compose.
  induction (filter _ cols) as [|a l IH]; [done|].
  rewrite fmap_cons. cbn [compose fst]. by f_equal.
Qed.

Lemma to_features_streets T :
  to_features {| columns := available T; index := RangeIndex (nrows T);
                 data := streets_row (available T) <$> data T |}
  = (fun r => row_feature (available T) (streets_row (available T) r)) <$> data T.
Proof. rewrite to_features_range. by rewrite <- list_fmap_compose. Qed.

Lemma out_cols_Permutation es es' : es ≡ₚ es' → out_cols es = out_cols es'.
Proof.
  intros Hp. unfold out_cols. apply list_filter_iff. intros c.
  rewrite !elem_of_edge_columns. by setoid_rewrite Hp.
Qed.

(** * The claims *)

(** C1, as stated: for the graph of three edges the third emitted
    [highway] property is absent.  It fails on that graph: the edge
    table has a [highway] column because the other two edges carry the
    attribute, the third row holds NaN there, and the feature of the
    third edge has the key [highway] with the value null. *)
Lemma missing_highway_emitted_as_null :
  ∃ nt et S f,
    graph_to_gdfs g3 = Ok (nt, et)
    ∧ edge_data e31 !! "highway" = None
    ∧ streets_of et = Ok S
    ∧ to_features S !! 2 = Some f
    ∧ "highway" ∈ (properties f).*1
    ∧ prop f "highway" = Some VNull
    ∧ prop f "highway" ≠ None.
Proof.
  eexists _, _, _, _. split; [reflexivity|]. split; [reflexivity|].
  split; [vm_compute; reflexivity|]. split; [reflexivity|].
  split; [left|]. split; [reflexivity|discriminate].
Qed.

(** C1, amended.  In every column the script keeps, other than
    [geometry], a cell that holds a non-empty list is replaced by the
    first element of the list, and a cell that holds no list (a
    scalar, or NaN for a missing value) is left as it is.  For a graph
    of three edges with [highway] = ["residential", "tertiary"],
    [highway] = "primary" and no [highway], the emitted [highway]
    properties are "residential", "primary" and, for the third edge,
    the key [highway] with the value null. *)
Theorem flatten_takes_first_element :
  (∀ (T : DataFrame) (i : nat) (r : row) (c : string),
     data T !! i = Some r → c ∈ available T → c ≠ "geometry" →
     ∃ S r', streets_of T = Ok S ∧ data S !! i = Some r'
       ∧ (∀ x l, cell r c = VList (x :: l) → cell r' c = x)
       ∧ (is_list (cell r c) = false → cell r' c = cell r c))
  ∧ (∀ (G : Graph) (e1 e2 e3 : Edge),
     nodes G ≠ [] → edges G = [e1; e2; e3] →
     edge_data e1 !! "highway" = Some (VList [VStr "residential"; VStr "tertiary"]) →
     edge_data e2 !! "highway" = Some (VStr "primary") →
     edge_data e3 !! "highway" = None →
     ∃ nt et S, graph_to_gdfs G = Ok (nt, et) ∧ streets_of et = Ok S
       ∧ (fun f => prop f "highway") <$> to_features S
         = [Some (VStr "residential"); Some (VStr "primary"); Some VNull]).
Proof.
  split.
  - intros T i r c Hr Hc Hg. eexists _, _. split; [apply streets_of_eq|].
    cbn [data]. rewrite list_lookup_fmap, Hr. split; [done|].
    rewrite cell_streets_row by done. rewrite decide_False by done.
    split.
    + by intros x l ->.
    + by destruct (cell r c).
  - intros G e1 e2 e3 Hn He H1 H2 H3.
    exists (nodes_table G), (edges_table G), (streets_table G).
    split; [apply graph_to_gdfs_ok; [done|by rewrite He]|].
    split; [apply streets_of_edges_table|].
    rewrite to_features_streets_table, <- list_fmap_compose, He.
    assert ("highway" ∈ out_cols [e1; e2; e3]) as Hh.
    { apply list_elem_of_filter. split; [|compute_done].
      apply elem_of_edge_columns. right. exists e1. split; [by left|by rewrite H1]. }
    assert (∀ e, prop (out_feature (out_cols [e1; e2; e3]) e) "highway"
                 = Some (flatten_value (cell (edge_data e) "highway"))) as Hp.
    { intros e. unfold prop, out_feature. cbn [properties].
      rewrite (lookup_list_to_map_graph
                 (fun c => flatten_value (cell (edge_data e) c))).
      rewrite decide_True; [done|]. by apply list_elem_of_filter. }
    cbn [fmap list_fmap compose]. rewrite !Hp. unfold cell.
    by rewrite H1, H2, H3.
Qed.

Lemma flatten_takes_first_element_witness :
  (∃ S r', streets_of (edges_table g3) = Ok S ∧ data S !! 0 = Some r'
           ∧ cell r' "highway" = VStr "residential")
  ∧ (∃ nt et S, graph_to_gdfs g3 = Ok (nt, et) ∧ streets_of et = Ok S
       ∧ (fun f => prop f "highway") <$> to_features S
         = [Some (VStr "residential"); Some (VStr "primary"); Some VNull]).
Proof.
  destruct flatten_takes_first_element as [Hcell Hscenario]. split.
  - destruct (Hcell (edges_table g3) 0
                (edge_row (edge_columns (edges g3)) e12) "highway")
      as (S & r' & HS & Hr & Hfirst & _).
    + reflexivity.
    + vm_compute. do 2 constructor.
    + discriminate.
    + exists S, r'. split; [exact HS|]. split; [exact Hr|].
      apply (Hfirst (VStr "residential") [VStr "tertiary"]). reflexivity.
  - apply (Hscenario g3 e12 e23 e31); try reflexivity. discriminate.
Defined.

(** C2, as stated: a cell whose raw value is the empty list is null in
    the table the script hands to the writer.  It fails on the graph
    whose one edge has [highway] = []: the guard [len(v) > 0] sends
    the empty list to the [else] branch, so the cell is still the
    empty list after the loop. *)
Lemma empty_list_cell_survives :
  ∃ r S r',
    data (edges_table g_empty_list) !! 0 = Some r
    ∧ cell r "highway" = VList []
    ∧ streets_of (edges_table g_empty_list) = Ok S
    ∧ "highway" ∈ columns S
    ∧ data S !! 0 = Some r'
    ∧ cell r' "highway" = VList []
    ∧ cell r' "highway" ≠ VNull.
Proof.
  eexists _, _, _. split; [reflexivity|]. split; [reflexivity|].
  split; [vm_compute; reflexivity|]. split; [do 2 constructor|].
  split; [reflexivity|]. split; [reflexivity|discriminate].
Qed.

(** C2, amended.  In every column the script keeps, other than
    [geometry], a cell whose raw value is the empty list is left as it
    is by the flattening step: the table handed to the writer still
    holds the empty list there. *)
Theorem empty_list_left_unchanged (T : DataFrame) (i : nat) (r : row) (c : string) :
  data T !! i = Some r → c ∈ available T → c ≠ "geometry" →
  cell r c = VList [] →
  ∃ S r', streets_of T = Ok S ∧ c ∈ columns S ∧ data S !! i = Some r'
    ∧ cell r' c = VList [].
Proof.
  intros Hr Hc Hg Hnil. eexists _, _. split; [apply streets_of_eq|].
  cbn [data columns]. rewrite list_lookup_fmap, Hr.
  split; [done|]. split; [done|].
  rewrite cell_streets_row by done. rewrite decide_False by done.
  by rewrite Hnil.
Qed.

Lemma empty_list_left_unchanged_witness :
  ∃ S r', streets_of (edges_table g_empty_list) = Ok S
    ∧ "highway" ∈ columns S
    ∧ data S !! 0 = Some r'
    ∧ cell r' "highway" = VList [].
Proof.
  apply (empty_list_left_unchanged (edges_table g_empty_list) 0
           (edge_row (edge_columns (edges g_empty_list))
              {| edge_u := n1; edge_v := n2; edge_key := 0;
                 edge_data := {[ "highway" := VList [] ]} |})
           "highway").
  - reflexivity.
  - vm_compute. do 2 constructor.
  - discriminate.
  - reflexivity.
Defined.

(** C3.  The columns of the output table are exactly the preferred
    columns that the fetched edge table has, and the property keys of
    every emitted feature are exactly those columns without
    [geometry]: nothing outside the preferred list is included and no
    available preferred column is dropped. *)
Theorem columns_are_intersection (T : DataFrame) :
  ∃ S, streets_of T = Ok S
    ∧ (∀ c, c ∈ columns S ↔ c ∈ keep_cols ∧ c ∈ columns T)
    ∧ (∀ f c, f ∈ to_features S →
         (c ∈ (properties f).*1
          ↔ c ∈ keep_cols ∧ c ∈ columns T ∧ c ≠ "geometry")).
Proof.
  eexists. split; [apply streets_of_eq|]. split.
  - intros c. cbn [columns]. apply elem_of_available.
  - intros f c Hf. rewrite to_features_streets in Hf.
    apply list_elem_of_fmap in Hf as (r & -> & _).
    rewrite keys_row_feature. split.
    + intros H. apply list_elem_of_filter in H as [Hg H].
      apply elem_of_available in H. tauto.
    + intros (? & ? & ?). apply list_elem_of_filter. split; [done|].
      by apply elem_of_available.
Qed.

Lemma columns_are_intersection_witness :
  ∃ S, streets_of (edges_table g3) = Ok S
    ∧ "highway" ∈ columns S ∧ ("osmid" ∉ columns S) ∧ ("name" ∉ columns S).
Proof.
  destruct (columns_are_intersection (edges_table g3)) as (S & HS & Hcols & _).
  exists S. split; [exact HS|]. split; [|split].
  - apply Hcols. split; vm_compute; do 3 constructor.
  - intros H. apply Hcols in H as [H _]. vm_compute in H.
    repeat (apply elem_of_cons in H as [H|H]; [discriminate H|]).
    by apply elem_of_nil in H.
  - intros H. apply Hcols in H as [_ H]. vm_compute in H.
    repeat (apply elem_of_cons in H as [H|H]; [discriminate H|]).
    by apply elem_of_nil in H.
Defined.

(** C5.  The converted edge table has a [geometry] column, the script
    selects it, selection, index reset and flattening leave its cells
    as they are, and every emitted feature has a geometry that is not
    null. *)
Theorem geometry_present_and_kept (G : Graph) :
  nodes G ≠ [] → edges G ≠ [] → forallb geometry_ok (edges G) = true →
  ∃ nt et S, graph_to_gdfs G = Ok (nt, et)
    ∧ "geometry" ∈ keep_cols
    ∧ "geometry" ∈ columns et
    ∧ streets_of et = Ok S
    ∧ "geometry" ∈ columns S
    ∧ getitem "geometry" S = getitem "geometry" et
    ∧ length (to_features S) = number_of_edges G
    ∧ Forall (fun f => ∃ g, geometry f = VGeom g) (to_features S).
Proof.
  intros Hn He Hok.
  exists (nodes_table G), (edges_table G), (streets_table G).
  split; [by apply graph_to_gdfs_ok|]. split; [by left|].
  split; [apply geometry_in_edge_columns|].
  split; [apply streets_of_edges_table|].
  split; [apply geometry_in_out_cols|]. split; [|split].
  - unfold getitem, streets_table. cbn [data].
    rewrite <- list_fmap_compose. apply list_fmap_ext. intros i r _.
    cbn [compose]. change (out_cols (edges G)) with (available (edges_table G)).
    rewrite cell_streets_row by apply geometry_in_out_cols.
    by rewrite decide_True.
  - rewrite to_features_streets_table. apply length_fmap.
  - rewrite to_features_streets_table. apply Forall_fmap, Forall_forall.
    intros e Hin. cbn [compose out_feature geometry].
    rewrite forallb_forall in Hok. apply list_elem_of_In, Hok in Hin.
    unfold geometry_ok in Hin. unfold make_geom.
    destruct (edge_data e !! "geometry") as [[]|]; try done; by eexists.
Qed.

Lemma geometry_present_and_kept_witness :
  ∃ nt et S, graph_to_gdfs g3 = Ok (nt, et)
    ∧ streets_of et = Ok S
    ∧ geometry <$> to_features S
      = [VGeom (LineString [(0, 0); (10, 0)]%Z);
         VGeom (LineString [(10, 0); (10, 10)]%Z);
         VGeom (LineString [(10, 10); (5, 6); (0, 0)]%Z)].
Proof.
  destruct (geometry_present_and_kept g3) as (nt & et & S & HG & _ & _ & HS & _);
    [discriminate|discriminate|reflexivity|].
  exists nt, et, S. split; [exact HG|]. split; [exact HS|].
  injection HG as <- <-. vm_compute in HS. injection HS as <-. reflexivity.
Defined.

(** C10.  The columns of the output table are the preferred list with
    the columns the edge table lacks left out, so they come in the
    order of the preferred list; two edge tables with the same columns
    in different orders give the same output columns, and the property
    keys of every feature follow that order. *)
Theorem columns_in_preferred_order (T1 T2 : DataFrame) :
  columns T1 ≡ₚ columns T2 →
  ∃ S1 S2, streets_of T1 = Ok S1 ∧ streets_of T2 = Ok S2
    ∧ columns S1 = filter (fun c => c ∈ columns T1) keep_cols
    ∧ columns S1 `sublist_of` keep_cols
    ∧ columns S2 = columns S1
    ∧ (∀ f, f ∈ to_features S1 →
         (properties f).*1 = filter (fun c => c ≠ "geometry") (columns S1)).
Proof.
  intros Hp. eexists _, _. split; [apply streets_of_eq|].
  split; [apply streets_of_eq|]. cbn [columns]. split; [done|].
  split; [apply sublist_filter|]. split.
  - unfold available. apply list_filter_iff. intros c. by rewrite Hp.
  - intros f Hf. rewrite to_features_streets in Hf.
    apply list_elem_of_fmap in Hf as (r & -> & _). apply keys_row_feature.
Qed.

Lemma columns_in_preferred_order_witness :
  ∃ S1 S2,
    streets_of {| columns := ["length"; "osmid"; "highway"; "geometry"; "name"];
                  index := RangeIndex 0; data := [] |} = Ok S1
    ∧ streets_of {| columns := ["name"; "geometry"; "highway"; "osmid"; "length"];
                    index := RangeIndex 0; data := [] |} = Ok S2
    ∧ columns S1 = ["geometry"; "name"; "highway"; "length"]
    ∧ columns S2 = columns S1.
Proof.
  destruct (columns_in_preferred_order
              {| columns := ["length"; "osmid"; "highway"; "geometry"; "name"];
                 index := RangeIndex 0; data := [] |}
              {| columns := ["name"; "geometry"; "highway"; "osmid"; "length"];
                 index := RangeIndex 0; data := [] |})
    as (S1 & S2 & H1 & H2 & Hcols & _ & Heq & _).
  - cbn [columns]. apply (bool_decide_unpack _). vm_compute. exact I.
  - exists S1, S2. split; [exact H1|]. split; [exact H2|].
    split; [|exact Heq]. rewrite Hcols. vm_compute. reflexivity.
Defined.

(** ** Claims about a run *)

Lemma fetch_streets_file size G w :
  nodes G ≠ [] → edges G ≠ [] → writable (fs w) = true →
  fs (fetch_streets size (Ok G) w).1 !! OUTPUT_FILE
  = Some (File (FeatureCollection (out_feature (out_cols (edges G)) <$> edges G))).
Proof.
  intros Hn He Hw. rewrite fetch_streets_fs by done. apply lookup_insert_eq.
Qed.

(** C4.  The edge table has one row per edge of the fetched graph;
    column selection, index reset and flattening keep the number of
    rows; the file the run writes has one feature per row.  So the
    number of written features is the number of edges of the graph. *)
Theorem feature_count_is_edge_count
    (geojson_size : list Feature → nat) (G : Graph) (w : World) :
  nodes G ≠ [] → edges G ≠ [] → writable (fs w) = true →
  ∃ nt et S, graph_to_gdfs G = Ok (nt, et)
    ∧ nrows et = number_of_edges G
    ∧ streets_of et = Ok S
    ∧ nrows S = nrows et
    ∧ fs (fetch_streets geojson_size (Ok G) w).1 !! OUTPUT_FILE
      = Some (File (FeatureCollection (to_features S)))
    ∧ length (to_features S) = number_of_edges G.
Proof.
  intros Hn He Hw.
  exists (nodes_table G), (edges_table G), (streets_table G).
  split; [by apply graph_to_gdfs_ok|].
  split; [apply length_fmap|].
  split; [apply streets_of_edges_table|].
  split; [unfold nrows, streets_table; cbn [data]; by rewrite !length_fmap|].
  rewrite to_features_streets_table. split.
  - by apply fetch_streets_file.
  - apply length_fmap.
Qed.

Lemma feature_count_is_edge_count_witness :
  ∃ S, streets_of (edges_table g3) = Ok S
    ∧ fs (fetch_streets length (Ok g3) w_fresh).1 !! OUTPUT_FILE
      = Some (File (FeatureCollection (to_features S)))
    ∧ length (to_features S) = 3.
Proof.
  destruct (feature_count_is_edge_count length g3 w_fresh)
    as (nt & et & S & HG & _ & HS & _ & Hfile & Hlen);
    [discriminate|discriminate|reflexivity|].
  injection HG as <- <-. exists S. split; [exact HS|].
  split; [exact Hfile|exact Hlen].
Defined.

(** C7.  The run first makes sure the output directory exists, whether
    it was there or not, and then writes the output file there,
    whatever was at that path before.  The preconditions say that no
    regular file lies where a directory has to be and no directory
    lies at the path of the output file. *)
Theorem directory_ensured_then_file_written
    (geojson_size : list Feature → nat) (G : Graph) (w : World) :
  nodes G ≠ [] → edges G ≠ [] → writable (fs w) = true →
  ∃ S fs1 fs2, streets_of (edges_table G) = Ok S
    ∧ makedirs_fs OUTPUT_DIR (fs w) = Ok fs1
    ∧ isdir fs1 OUTPUT_DIR = true
    ∧ write_fs OUTPUT_FILE (FeatureCollection (to_features S)) fs1 = Ok fs2
    ∧ fs (fetch_streets geojson_size (Ok G) w).1 = fs2
    ∧ isdir fs2 OUTPUT_DIR = true
    ∧ fs2 !! OUTPUT_FILE = Some (File (FeatureCollection (to_features S))).
Proof.
  intros Hn He Hw.
  exists (streets_table G), (dirs_from [] OUTPUT_DIR (fs w)),
    (<[OUTPUT_FILE := File (FeatureCollection (to_features (streets_table G)))]>
       (dirs_from [] OUTPUT_DIR (fs w))).
  assert (dirs_from [] OUTPUT_DIR (fs w) !! OUTPUT_DIR = Some Dir) as Hdir.
  { by apply (dirs_from_last [] OUTPUT_DIR). }
  split; [apply streets_of_edges_table|].
  split; [by apply makedirs_fs_writable|].
  split; [unfold isdir; by rewrite Hdir|].
  split; [by apply write_fs_writable|].
  split; [|split].
  - rewrite fetch_streets_written, breakdown_fs by done. reflexivity.
  - unfold isdir. rewrite lookup_insert_ne by discriminate. by rewrite Hdir.
  - apply lookup_insert_eq.
Qed.

Lemma directory_ensured_then_file_written_witness :
  (fs w_fresh !! OUTPUT_DIR = None
   ∧ ∃ F, fs (fetch_streets length (Ok g3) w_fresh).1 !! OUTPUT_FILE
          = Some (File (FeatureCollection F))
     ∧ isdir (fs (fetch_streets length (Ok g3) w_fresh).1) OUTPUT_DIR = true)
  ∧ (fs w_old !! OUTPUT_FILE = Some (File (Other "stale"))
     ∧ ∃ F, fs (fetch_streets length (Ok g3) w_old).1 !! OUTPUT_FILE
            = Some (File (FeatureCollection F))).
Proof.
  split.
  - split; [reflexivity|].
    destruct (directory_ensured_then_file_written length g3 w_fresh)
      as (S & fs1 & fs2 & _ & _ & _ & _ & Hrun & Hdir & Hfile);
      [discriminate|discriminate|reflexivity|].
    exists (to_features S). rewrite Hrun. split; [exact Hfile|exact Hdir].
  - split; [reflexivity|].
    destruct (directory_ensured_then_file_written length g3 w_old)
      as (S & fs1 & fs2 & _ & _ & _ & _ & Hrun & _ & Hfile);
      [discriminate|discriminate|reflexivity|].
    exists (to_features S). rewrite Hrun. exact Hfile.
Defined.

(** C8.  When the upstream fetch raises, nothing in the script catches
    the exception: [fetch_streets] ends with it, the process exits
    with status 1, and the file system is as it was; only the three
    lines printed before the fetch have gone to the console. *)
Theorem upstream_failure_leaves_files
    (geojson_size : list Feature → nat) (e : exn) (w : World) :
  ∃ w', fetch_streets geojson_size (Raise e) w = (w', Raise e)
    ∧ main geojson_size (Raise e) w = (w', 1%Z)
    ∧ (main geojson_size (Raise e) w).2 ≠ 0%Z
    ∧ fs w' = fs w
    ∧ fs w' !! OUTPUT_FILE = fs w !! OUTPUT_FILE
    ∧ stdout w' = stdout w ++ [LFetching; LBBox NORTH SOUTH EAST WEST; LBlank].
Proof.
  exists {| fs := fs w;
            stdout := stdout w ++ [LFetching; LBBox NORTH SOUTH EAST WEST; LBlank] |}.
  assert (fetch_streets geojson_size (Raise e) w
          = ({| fs := fs w;
                stdout := stdout w ++ [LFetching; LBBox NORTH SOUTH EAST WEST; LBlank] |},
             Raise e)) as Hrun.
  { unfold fetch_streets, mbind, M_bind, print, lift. cbn [fs stdout].
    by rewrite <- !(assoc_L (++)). }
  unfold main. rewrite Hrun. by split_and!.
Qed.

Lemma upstream_failure_leaves_files_witness :
  ∃ w', main length (Raise (UpstreamError "timeout")) w_old = (w', 1%Z)
    ∧ fs w' !! OUTPUT_FILE = Some (File (Other "stale")).
Proof.
  destruct (upstream_failure_leaves_files length (UpstreamError "timeout") w_old)
    as (w' & _ & Hmain & _ & _ & Hfile & _).
  exists w'. split; [exact Hmain|]. rewrite Hfile. reflexivity.
Defined.

Lemma keys_out_feature cols e :
  (properties (out_feature cols e)).*1 = filter (fun c => c ≠ "geometry") cols.
Proof.
  unfold out_feature. cbn [properties]. rewrite <- list_fmap_compose.
  induction (filter _ cols) as [|a l IH]; [done|].
  rewrite fmap_cons. cbn [compose fst]. by f_equal.
Qed.

(** C6.  Two runs on the same graph, whatever the order in which each
    run meets the edges and whatever the file system held before,
    write files with the same number of features, the same property
    keys and the same geometries, up to the order of the rows. *)
Theorem two_runs_same_output
    (geojson_size : list Feature → nat) (G1 G2 : Graph) (w1 w2 : World) :
  edges G1 ≡ₚ edges G2 →
  nodes G1 ≠ [] → nodes G2 ≠ [] → edges G1 ≠ [] →
  writable (fs w1) = true → writable (fs w2) = true →
  ∃ F1 F2,
    fs (fetch_streets geojson_size (Ok G1) w1).1 !! OUTPUT_FILE
    = Some (File (FeatureCollection F1))
    ∧ fs (fetch_streets geojson_size (Ok G2) w2).1 !! OUTPUT_FILE
      = Some (File (FeatureCollection F2))
    ∧ length F1 = length F2
    ∧ (∀ f1 f2, f1 ∈ F1 → f2 ∈ F2 → (properties f1).*1 = (properties f2).*1)
    ∧ geometry <$> F1 ≡ₚ geometry <$> F2
    ∧ F1 ≡ₚ F2.
Proof.
  intros Hp Hn1 Hn2 He1 Hw1 Hw2.
  assert (edges G2 ≠ []) as He2.
  { intros Hnil. rewrite Hnil in Hp. by apply Permutation_nil_r in Hp. }
  eexists _, _. split; [by apply fetch_streets_file|].
  split; [by apply fetch_streets_file|].
  rewrite <- (out_cols_Permutation _ _ Hp).
  assert (out_feature (out_cols (edges G1)) <$> edges G1
          ≡ₚ out_feature (out_cols (edges G1)) <$> edges G2) as HF.
  { by apply fmap_Permutation. }
  split; [by rewrite HF|]. split; [|split; [by rewrite HF|done]].
  intros f1 f2 (e1 & -> & _)%list_elem_of_fmap (e2 & -> & _)%list_elem_of_fmap.
  by rewrite !keys_out_feature.
Qed.

Lemma two_runs_same_output_witness :
  ∃ F1 F2,
    fs (fetch_streets length (Ok g3) w_fresh).1 !! OUTPUT_FILE
    = Some (File (FeatureCollection F1))
    ∧ fs (fetch_streets length (Ok g3') w_old).1 !! OUTPUT_FILE
      = Some (File (FeatureCollection F2))
    ∧ length F1 = length F2
    ∧ geometry <$> F1 ≡ₚ geometry <$> F2.
Proof.
  destruct (two_runs_same_output length g3 g3' w_fresh w_old)
    as (F1 & F2 & H1 & H2 & Hlen & _ & Hgeom & _).
  - change (edges g3') with ([e31] ++ [e12; e23]).
    change (edges g3) with ([e12; e23] ++ [e31]). apply Permutation_app_comm.
  - discriminate.
  - discriminate.
  - discriminate.
  - reflexivity.
  - reflexivity.
  - exists F1, F2. split; [exact H1|]. split; [exact H2|].
    split; [exact Hlen|exact Hgeom].
Defined.

Lemma getitem_streets_table G c :
  c ∈ out_cols (edges G) → c ≠ "geometry" →
  getitem c (streets_table G)
  = (fun e => flatten_value (cell (edge_data e) c)) <$> edges G.
Proof.
  intros Hc Hg. unfold getitem, streets_table, edges_table. cbn [data].
  rewrite <- !list_fmap_compose. apply list_fmap_ext. intros i e _.
  cbn [compose]. change (out_cols (edges G)) with (available (edges_table G)).
  rewrite cell_streets_row by done. rewrite decide_False by done.
  rewrite cell_edge_row by (by apply out_cols_edge_columns).
  by rewrite decide_False.
Qed.



(** * Further properties of the script *)

(** ** The flattening loop *)

Lemma cell_flatten_row_skip cols r c :
  c ∉ cols ∨ c = "geometry" → cell (flatten_row cols r) c = cell r c.
Proof.
  revert r. induction cols as [|a cols IH]; intros r Hc; [done|].
  rewrite flatten_row_cons, IH.
  - case_bool_decide as Hg; [done|]. apply cell_insert_ne.
    destruct Hc as [Hc| ->]; [|done]. intros ->. apply Hc. by left.
  - destruct Hc as [Hc|Hc]; [left|by right]. intros Hin. apply Hc. by right.
Qed.

Lemma getitem_flatten_skip df c :
  c ∉ columns df ∨ c = "geometry" → getitem c (flatten df) = getitem c df.
Proof.
  intros Hc. rewrite flatten_eq. unfold getitem. cbn [data].
  rewrite <- list_fmap_compose. apply list_fmap_ext. intros i r _.
  cbn [compose]. by apply cell_flatten_row_skip.
Qed.

(** X1.  After selection and flattening, a cell of a kept column other
    than [geometry] is still a list in exactly two cases: the raw cell
    was the empty list, or the first element of the raw list was
    itself a list.  The loop takes one level off, no more. *)
Theorem list_cell_after_flatten (T : DataFrame) (i : nat) (r : row) (c : string) :
  data T !! i = Some r → c ∈ available T → c ≠ "geometry" →
  ∃ S r', streets_of T = Ok S ∧ data S !! i = Some r'
    ∧ (is_list (cell r' c) = true
       ↔ cell r c = VList [] ∨ ∃ l rest, cell r c = VList (VList l :: rest)).
Proof.
  intros Hr Hc Hg. eexists _, _. split; [apply streets_of_eq|].
  cbn [data]. rewrite list_lookup_fmap, Hr. split; [done|].
  rewrite cell_streets_row by done. rewrite decide_False by done.
  destruct (cell r c) as [| | | | |[|x l]]; cbn [flatten_value is_list].
  - split; [done|]. by intros [?|(? & ? & ?)].
  - split; [done|]. by intros [?|(? & ? & ?)].
  - split; [done|]. by intros [?|(? & ? & ?)].
  - split; [done|]. by intros [?|(? & ? & ?)].
  - split; [done|]. by intros [?|(? & ? & ?)].
  - split; [by left|done].
  - split.
    + intros Hx. right. destruct x; try done. by eexists _, _.
    + intros [?|(l' & rest & Heq)]; [done|]. by injection Heq as -> _.
Qed.

Lemma list_cell_after_flatten_witness :
  ∃ S r', streets_of (edges_table g_nested) = Ok S ∧ data S !! 0 = Some r'
    ∧ is_list (cell r' "highway") = true.
Proof.
  destruct (list_cell_after_flatten (edges_table g_nested) 0
              (edge_row (edge_columns (edges g_nested))
                 {| edge_u := n1; edge_v := n2; edge_key := 0;
                    edge_data := {[ "highway" := VList [VList [VStr "a"]; VStr "b"] ]} |})
              "highway")
    as (S & r' & HS & Hr & Hlist).
  - reflexivity.
  - vm_compute. do 2 constructor.
  - discriminate.
  - exists S, r'. split; [exact HS|]. split; [exact Hr|].
    apply Hlist. right. exists [VStr "a"], [VStr "b"]. reflexivity.
Defined.

(** X2.  On any table the loop keeps the column list, the index and
    the number of rows, and it leaves the [geometry] column and every
    label that is not a column of the table as they were. *)
Theorem flatten_keeps_shape (df : DataFrame) :
  columns (flatten df) = columns df
  ∧ index (flatten df) = index df
  ∧ nrows (flatten df) = nrows df
  ∧ getitem "geometry" (flatten df) = getitem "geometry" df
  ∧ (∀ c, c ∉ columns df → getitem c (flatten df) = getitem c df).
Proof.
  split_and!.
  - by rewrite flatten_eq.
  - by rewrite flatten_eq.
  - rewrite flatten_eq. unfold nrows. cbn [data]. apply length_fmap.
  - apply getitem_flatten_skip. by right.
  - intros c Hc. apply getitem_flatten_skip. by left.
Qed.

Lemma flatten_keeps_shape_witness :
  columns (flatten (edges_table g3)) = columns (edges_table g3)
  ∧ nrows (flatten (edges_table g3)) = 3
  ∧ getitem "name" (flatten (edges_table g3)) = [VNull; VNull; VNull].
Proof.
  destruct (flatten_keeps_shape (edges_table g3)) as (Hc & _ & Hn & _ & Hother).
  split; [exact Hc|]. split; [rewrite Hn; reflexivity|].
  rewrite Hother; [reflexivity|]. vm_compute. intros H.
  repeat (apply elem_of_cons in H as [H|H]; [discriminate H|]).
  by apply elem_of_nil in H.
Defined.

(** ** The file system, further *)

Lemma elem_of_prefixes (p q : path) :
  q ∈ prefixes p ↔ ∃ k, 1 ≤ k ≤ length p ∧ q = take k p.
Proof.
  unfold prefixes. rewrite list_elem_of_fmap. split.
  - intros (k & -> & Hk%elem_of_seq). exists k. split; [lia|done].
  - intros (k & Hk & ->). exists k. split; [done|]. apply elem_of_seq. lia.
Qed.

Lemma makedirs_from_frame base comps fs fs1 q :
  makedirs_from base comps fs = Ok fs1 →
  (∀ k, 1 ≤ k ≤ length comps → q ≠ base ++ take k comps) →
  fs1 !! q = fs !! q.
Proof.
  revert base fs. induction comps as [|c rest IH]; intros base fs Hmk Hq.
  - by injection Hmk as <-.
  - cbn [makedirs_from] in Hmk.
    assert (q ≠ base ++ [c]) as Hne.
    { specialize (Hq 1). simpl in Hq. rewrite take_0 in Hq. apply Hq. lia. }
    assert (∀ k, 1 ≤ k ≤ length rest → q ≠ (base ++ [c]) ++ take k rest) as Hq'.
    { intros k Hk. rewrite <- (assoc_L (++)). apply (Hq (S k)). simpl. lia. }
    destruct (fs !! (base ++ [c])) as [[|f]|] eqn:Hlook.
    + by apply (IH (base ++ [c]) fs).
    + done.
    + rewrite (IH _ _ Hmk Hq'). by apply lookup_insert_ne.
Qed.

Lemma makedirs_from_blocked base comps fs :
  (∃ k, 1 ≤ k ≤ length comps ∧ is_file fs (base ++ take k comps) = true) →
  ∃ e, makedirs_from base comps fs = Raise e
       ∧ (e = FileExistsError ∨ e = NotADirectoryError).
Proof.
  revert base fs. induction comps as [|c rest IH]; intros base fs (k & Hk & Hf).
  - simpl in Hk. lia.
  - cbn [makedirs_from].
    assert (∀ fs', (∀ q, q ≠ base ++ [c] → fs' !! q = fs !! q) → 1 < k →
              ∃ k', 1 ≤ k' ≤ length rest
                    ∧ is_file fs' ((base ++ [c]) ++ take k' rest) = true) as Hstep.
    { intros fs' Hsame Hk1. destruct k as [|k']; [lia|]. exists k'.
      split; [simpl in Hk; lia|]. unfold is_file in *. rewrite Hsame.
      - by rewrite <- (assoc_L (++)).
      - intros Heq. apply (f_equal length) in Heq.
        rewrite !length_app, length_take in Heq. simpl in *. lia. }
    destruct (fs !! (base ++ [c])) as [[|f]|] eqn:Hlook.
    + apply IH, Hstep; [done|]. destruct (decide (k = 1)) as [->|]; [|lia].
      unfold is_file in Hf. simpl in Hf. rewrite take_0, Hlook in Hf. done.
    + eexists. split; [done|]. destruct rest; tauto.
    + apply IH, Hstep.
      * intros q Hq. by apply lookup_insert_ne.
      * destruct (decide (k = 1)) as [->|]; [|lia].
        unfold is_file in Hf. simpl in Hf. rewrite take_0, Hlook in Hf. done.
Qed.

Lemma dirs_from_prefix base comps fs k :
  1 ≤ k ≤ length comps →
  dirs_from base comps fs !! (base ++ take k comps) = Some Dir.
Proof.
  revert base fs k. induction comps as [|c rest IH]; intros base fs k Hk.
  - simpl in Hk. lia.
  - cbn [dirs_from]. destruct k as [|k]; [lia|]. cbn [take].
    destruct k as [|k].
    + rewrite take_0, dirs_from_other; [apply lookup_insert_eq|].
      intros k Hk' Heq. apply (f_equal length) in Heq.
      rewrite !length_app, length_take in Heq. simpl in Heq. lia.
    + replace (base ++ c :: take (S k) rest)
        with ((base ++ [c]) ++ take (S k) rest) by (by rewrite <- (assoc_L (++))).
      apply IH. simpl in Hk. lia.
Qed.

Lemma write_fs_inv p c fs fs2 :
  write_fs p c fs = Ok fs2 → fs2 = <[p := File c]> fs.
Proof.
  unfold write_fs. destruct (negb _); [done|]. destruct (isdir fs p); [done|].
  by intros [= <-].
Qed.

Lemma forallb_false_elem {A} (f : A → bool) (l : list A) :
  forallb f l = false → ∃ x, x ∈ l ∧ f x = false.
Proof.
  induction l as [|a l IH]; [done|]. cbn [forallb].
  destruct (f a) eqn:Ha.
  - intros (x & Hx & Hf)%IH. exists x. split; [by right|done].
  - intros _. exists a. split; [by left|done].
Qed.

Lemma writable_cases fs :
  writable fs = false →
  (∃ k, 1 ≤ k ≤ length OUTPUT_DIR ∧ is_file fs ([] ++ take k OUTPUT_DIR) = true)
  ∨ (makedirs_fs OUTPUT_DIR fs = Ok (dirs_from [] OUTPUT_DIR fs)
     ∧ isdir fs OUTPUT_FILE = true).
Proof.
  intros Hw. unfold writable in Hw.
  destruct (forallb _ (prefixes OUTPUT_DIR)) eqn:Hall.
  - right. split.
    + apply makedirs_from_ok. intros k Hk. rewrite forallb_forall in Hall.
      apply negb_true_iff, Hall, list_elem_of_In, elem_of_prefixes. by exists k.
    + by apply negb_false_iff in Hw.
  - left. apply forallb_false_elem in Hall as (q & Hq & Hf).
    apply elem_of_prefixes in Hq as (k & Hk & ->). exists k.
    split; [done|]. by apply negb_false_iff in Hf.
Qed.

(** ** The paths of a run *)

Section Paths.

Variable geojson_size : list Feature → nat.

Lemma run_upstream_raise e w :
  fetch_streets geojson_size (Raise e) w
  = ({| fs := fs w;
        stdout := stdout w ++ [LFetching; LBBox NORTH SOUTH EAST WEST; LBlank] |},
     Raise e).
Proof.
  unfold fetch_streets, mbind, M_bind, print, lift. cbn [fs stdout].
  by rewrite <- !(assoc_L (++)).
Qed.

Lemma run_conversion_raise G e w :
  graph_to_gdfs G = Raise e →
  fetch_streets geojson_size (Ok G) w
  = ({| fs := fs w;
        stdout := stdout w ++ [LFetching; LBBox NORTH SOUTH EAST WEST; LBlank;
                               LDownloaded (number_of_nodes G) (number_of_edges G)] |},
     Raise e).
Proof.
  intros HG. unfold fetch_streets, mbind, M_bind, print, lift. cbn [fs stdout].
  rewrite HG. by rewrite <- !(assoc_L (++)).
Qed.

Lemma run_steps G w :
  nodes G ≠ [] → edges G ≠ [] →
  fetch_streets geojson_size (Ok G) w
  = let out4 := stdout w ++ [LFetching; LBBox NORTH SOUTH EAST WEST; LBlank;
                             LDownloaded (number_of_nodes G) (number_of_edges G)] in
    let features := to_features (streets_table G) in
    match makedirs_fs OUTPUT_DIR (fs w) with
    | Raise e => ({| fs := fs w; stdout := out4 |}, Raise e)
    | Ok fs1 =>
        match write_fs OUTPUT_FILE (FeatureCollection features) fs1 with
        | Raise e => ({| fs := fs1; stdout := out4 |}, Raise e)
        | Ok fs2 =>
            breakdown (streets_table G)
              {| fs := fs2;
                 stdout := stdout w ++ summary_lines G (geojson_size features) |}
        end
    end.
Proof.
  intros Hn He. unfold fetch_streets.
  unfold mbind, M_bind, print, lift. cbn [fs stdout].
  rewrite graph_to_gdfs_ok by done.
  rewrite getitem_cols_available. cbv beta iota zeta.
  rewrite flatten_reset_selected.
  unfold makedirs, on_fs. cbn [fs stdout].
  rewrite <- !(assoc_L (++)). cbn [app].
  destruct (makedirs_fs OUTPUT_DIR (fs w)) as [fs1|e]; [|done].
  unfold to_file. rewrite bool_decide_true by apply geometry_in_out_cols.
  unfold on_fs. cbn [fs stdout].
  destruct (write_fs OUTPUT_FILE _ fs1) as [fs2|e] eqn:Hwr; [|done].
  apply write_fs_inv in Hwr as ->.
  unfold getsize. cbn [fs stdout]. rewrite lookup_insert_eq.
  cbn [content_size]. unfold breakdown, summary_lines.
  assert (nrows (streets_table G) = number_of_edges G) as ->.
  { unfold nrows, streets_table, edges_table, number_of_edges. cbn [data].
    by rewrite !length_fmap. }
  cbn [fs stdout]. rewrite <- !(assoc_L (++)). reflexivity.
Qed.

Lemma graph_to_gdfs_cases G :
  (nodes G ≠ [] ∧ edges G ≠ []
   ∧ graph_to_gdfs G = Ok (nodes_table G, edges_table G))
  ∨ graph_to_gdfs G = Raise ValueError.
Proof.
  unfold graph_to_gdfs. destruct (nodes G), (edges G); try (by right).
  left. by split_and!.
Qed.

Lemma breakdown_stdout S w :
  ∃ tail, stdout (breakdown S w).1 = stdout w ++ tail.
Proof.
  unfold breakdown. case_bool_decide.
  - unfold mbind, M_bind, print at 1. cbv zeta.
    rewrite for_each_print. cbn [fst fs stdout].
    eexists. by rewrite <- (assoc_L (++)).
  - exists []. by rewrite app_nil_r.
Qed.

(** A run on a file system that is not [writable] raises at the
    directory step or at the write, and the path of the output file
    holds what it held. *)
Lemma run_not_writable G w :
  nodes G ≠ [] → edges G ≠ [] → writable (fs w) = false →
  ∃ w' e, fetch_streets geojson_size (Ok G) w = (w', Raise e)
    ∧ e ∈ [FileExistsError; NotADirectoryError; IsADirectoryError]
    ∧ fs w' !! OUTPUT_FILE = fs w !! OUTPUT_FILE.
Proof.
  intros Hn He Hw. rewrite run_steps by done. cbv zeta.
  destruct (writable_cases _ Hw) as [Hblocked|[Hmk Hdir]].
  - apply makedirs_from_blocked in Hblocked as (e & Hmk & He').
    unfold makedirs_fs. rewrite Hmk. eexists _, e. split; [done|].
    split; [|done]. destruct He' as [-> | ->]; [by left|by right; left].
  - rewrite Hmk. unfold write_fs.
    assert (isdir (dirs_from [] OUTPUT_DIR (fs w)) (removelast OUTPUT_FILE) = true) as ->.
    { change (removelast OUTPUT_FILE) with ([] ++ OUTPUT_DIR).
      unfold isdir. by rewrite dirs_from_last. }
    assert (dirs_from [] OUTPUT_DIR (fs w) !! OUTPUT_FILE = fs w !! OUTPUT_FILE) as Hsame.
    { apply dirs_from_other. intros k Hk Heq. apply (f_equal length) in Heq.
      rewrite length_app, length_take in Heq. simpl in Heq. lia. }
    assert (isdir (dirs_from [] OUTPUT_DIR (fs w)) OUTPUT_FILE = true) as ->.
    { unfold isdir in *. by rewrite Hsame. }
    cbn [negb]. eexists _, _. split; [done|]. split; [|done].
    by do 2 right; left.
Qed.

End Paths.

(** X3.  Whatever the fetch gives and whatever the file system holds,
    a run changes nothing outside the output directory path and the
    output file: every other path holds after the run what it held
    before. *)
Theorem run_touches_only_output
    (geojson_size : list Feature → nat) (upstream : result Graph)
    (w : World) (q : path) :
  q ∉ prefixes OUTPUT_DIR → q ≠ OUTPUT_FILE →
  fs (fetch_streets geojson_size upstream w).1 !! q = fs w !! q.
Proof.
  intros Hq Hf. destruct upstream as [G|e]; [|by rewrite run_upstream_raise].
  destruct (graph_to_gdfs_cases G) as [(Hn & He & _)|HG];
    [|by rewrite (run_conversion_raise _ _ _ _ HG)].
  rewrite run_steps by done. cbv zeta.
  destruct (makedirs_fs OUTPUT_DIR (fs w)) as [fs1|e] eqn:Hmk; [|done].
  assert (fs1 !! q = fs w !! q) as Hfs1.
  { apply (makedirs_from_frame [] OUTPUT_DIR); [done|].
    intros k Hk ->. apply Hq, elem_of_prefixes. by exists k. }
  destruct (write_fs OUTPUT_FILE _ fs1) as [fs2|e] eqn:Hwr; [|done].
  apply write_fs_inv in Hwr as ->. rewrite breakdown_fs. cbn [fs].
  by rewrite lookup_insert_ne.
Qed.

Lemma run_touches_only_output_witness :
  fs (fetch_streets length (Ok g3)
        {| fs := {[ ["README.md"] := File (Other "harbor") ]}; stdout := [] |}).1
    !! ["README.md"]
  = Some (File (Other "harbor")).
Proof.
  rewrite (run_touches_only_output length (Ok g3) _ ["README.md"]).
  - reflexivity.
  - vm_compute. intros H.
    repeat (apply elem_of_cons in H as [H|H]; [discriminate H|]).
    by apply elem_of_nil in H.
  - discriminate.
Defined.

(** X4.  Every run only adds lines to the console, and the lines it
    adds start with the banner of lines 30-32; when the fetch gave a
    graph, the next line reports the node and edge counts of that
    graph, whatever happens afterwards. *)
Theorem run_prints_banner_first
    (geojson_size : list Feature → nat) (upstream : result Graph) (w : World) :
  ∃ rest,
    stdout (fetch_streets geojson_size upstream w).1
    = stdout w ++ [LFetching; LBBox NORTH SOUTH EAST WEST; LBlank] ++ rest
    ∧ (∀ G, upstream = Ok G →
         ∃ rest', rest = LDownloaded (number_of_nodes G) (number_of_edges G) :: rest').
Proof.
  destruct upstream as [G|e].
  - assert (∃ rest',
              stdout (fetch_streets geojson_size (Ok G) w).1
              = stdout w ++ [LFetching; LBBox NORTH SOUTH EAST WEST; LBlank;
                             LDownloaded (number_of_nodes G) (number_of_edges G)]
                ++ rest') as [rest' Hout].
    { destruct (graph_to_gdfs_cases G) as [(Hn & He & _)|HG].
      - rewrite run_steps by done. cbv zeta.
        destruct (makedirs_fs OUTPUT_DIR (fs w)) as [fs1|e];
          [|exists []; by rewrite app_nil_r].
        destruct (write_fs OUTPUT_FILE _ fs1) as [fs2|e];
          [|exists []; by rewrite app_nil_r].
        edestruct breakdown_stdout as [tail ->]. cbn [stdout].
        exists ([LWrote (number_of_edges G); LPath OUTPUT_FILE;
                 LSize (geojson_size (to_features (streets_table G)))] ++ tail).
        unfold summary_lines. by rewrite <- !(assoc_L (++)).
      - rewrite (run_conversion_raise _ _ _ _ HG). exists [].
        by rewrite app_nil_r. }
    eexists. split; [rewrite Hout; reflexivity|].
    intros G' [= <-]. by eexists.
  - rewrite run_upstream_raise. exists []. split; [done|]. by intros G [=].
Qed.

(** X5.  When the conversion of the fetched graph to tables raises,
    the run ends with that exception before the directory step: the
    file system is as it was, the exit status is 1, and the console
    has the banner and the line with the counts. *)
Theorem conversion_failure_leaves_files
    (geojson_size : list Feature → nat) (G : Graph) (e : exn) (w : World) :
  graph_to_gdfs G = Raise e →
  ∃ w', fetch_streets geojson_size (Ok G) w = (w', Raise e)
    ∧ main geojson_size (Ok G) w = (w', 1%Z)
    ∧ fs w' = fs w
    ∧ stdout w'
      = stdout w ++ [LFetching; LBBox NORTH SOUTH EAST WEST; LBlank;
                     LDownloaded (number_of_nodes G) (number_of_edges G)].
Proof.
  intros HG. eexists. unfold main.
  rewrite (run_conversion_raise _ _ _ _ HG). by split_and!.
Qed.

Lemma conversion_failure_leaves_files_witness :
  ∃ w', main length (Ok g_no_edges) w_old = (w', 1%Z)
    ∧ fs w' = fs w_old
    ∧ stdout w' = [LFetching; LBBox NORTH SOUTH EAST WEST; LBlank; LDownloaded 1 0].
Proof.
  destruct (conversion_failure_leaves_files length g_no_edges ValueError w_old)
    as (w' & _ & Hmain & Hfs & Hout); [reflexivity|].
  exists w'. split; [exact Hmain|]. split; [exact Hfs|]. rewrite Hout. reflexivity.
Defined.

(** X6.  On a file system where a regular file lies on the directory
    path, or a directory lies at the path of the output file, the run
    does not write: it raises at the directory step or at the write,
    the exit status is 1, and the path of the output file holds what
    it held. *)
Theorem blocked_write_raises
    (geojson_size : list Feature → nat) (G : Graph) (w : World) :
  nodes G ≠ [] → edges G ≠ [] → writable (fs w) = false →
  ∃ w' e, fetch_streets geojson_size (Ok G) w = (w', Raise e)
    ∧ e ∈ [FileExistsError; NotADirectoryError; IsADirectoryError]
    ∧ main geojson_size (Ok G) w = (w', 1%Z)
    ∧ fs w' !! OUTPUT_FILE = fs w !! OUTPUT_FILE.
Proof.
  intros Hn He Hw.
  destruct (run_not_writable geojson_size G w Hn He Hw) as (w' & e & Hrun & He' & Hf).
  exists w', e. unfold main. rewrite Hrun. by split_and!.
Qed.

Lemma blocked_write_raises_witness :
  (∃ w' e, fetch_streets length (Ok g3) w_blocked = (w', Raise e)
           ∧ fs w' !! OUTPUT_FILE = None)
  ∧ (∃ w' e, fetch_streets length (Ok g3) w_dir_at_file = (w', Raise e)
             ∧ fs w' !! OUTPUT_FILE = Some Dir).
Proof.
  split.
  - destruct (blocked_write_raises length g3 w_blocked)
      as (w' & e & Hrun & _ & _ & Hf); [discriminate|discriminate|reflexivity|].
    exists w', e. split; [exact Hrun|]. rewrite Hf. reflexivity.
  - destruct (blocked_write_raises length g3 w_dir_at_file)
      as (w' & e & Hrun & _ & _ & Hf); [discriminate|discriminate|reflexivity|].
    exists w', e. split; [exact Hrun|]. rewrite Hf. reflexivity.
Defined.

Lemma run_prints_banner_first_witness :
  ∃ rest,
    stdout (fetch_streets length (Ok g_no_edges) w_fresh).1
    = [LFetching; LBBox NORTH SOUTH EAST WEST; LBlank; LDownloaded 1 0] ++ rest.
Proof.
  destruct (run_prints_banner_first length (Ok g_no_edges) w_fresh)
    as (rest & Hout & Hdown).
  destruct (Hdown g_no_edges eq_refl) as (rest' & ->).
  exists rest'. rewrite Hout. reflexivity.
Defined.

(** ** Exit status and repeated runs *)

Lemma main_world size upstream w :
  (main size upstream w).1 = (fetch_streets size upstream w).1.
Proof. unfold main. by destruct (fetch_streets size upstream w) as [w' []]. Qed.

Lemma main_status size upstream w :
  (main size upstream w).2 = 0%Z ↔ ∃ w', fetch_streets size upstream w = (w', Ok tt).
Proof.
  unfold main. destruct (fetch_streets size upstream w) as [w' [[]|e]]; cbn [snd].
  - split; [by eexists|done].
  - split; [done|]. by intros (? & [=]).
Qed.

(** X7.  A run that exits with status 0 got a graph with nodes and
    edges from the fetch, found a file system on which the directory
    could be made and the file written, and has left at the output
    path one feature per edge of that graph, under an output
    directory: status 0 is never reported without the file. *)
Theorem exit_status_zero
    (geojson_size : list Feature → nat) (upstream : result Graph) (w : World) :
  (main geojson_size upstream w).2 = 0%Z →
  ∃ G F, upstream = Ok G
    ∧ nodes G ≠ [] ∧ edges G ≠ []
    ∧ writable (fs w) = true
    ∧ fs (main geojson_size upstream w).1 !! OUTPUT_FILE
      = Some (File (FeatureCollection F))
    ∧ length F = number_of_edges G
    ∧ isdir (fs (main geojson_size upstream w).1) OUTPUT_DIR = true.
Proof.
  intros (w' & Hrun)%main_status. destruct upstream as [G|e];
    [|by rewrite run_upstream_raise in Hrun].
  destruct (graph_to_gdfs_cases G) as [(Hn & He & _)|HG];
    [|by rewrite (run_conversion_raise _ _ _ _ HG) in Hrun].
  assert (writable (fs w) = true) as Hw.
  { destruct (writable (fs w)) eqn:Hw; [done|].
    destruct (run_not_writable geojson_size G w Hn He Hw) as (? & ? & Hr & _).
    by rewrite Hr in Hrun. }
  exists G, (out_feature (out_cols (edges G)) <$> edges G).
  rewrite main_world, fetch_streets_fs by done. split_and!; try done.
  - apply lookup_insert_eq.
  - apply length_fmap.
  - unfold isdir. rewrite lookup_insert_ne by discriminate.
    by rewrite (dirs_from_last [] OUTPUT_DIR).
Qed.

Lemma exit_status_zero_witness :
  ∃ F, fs (main length (Ok g3) w_fresh).1 !! OUTPUT_FILE
       = Some (File (FeatureCollection F))
    ∧ length F = 3.
Proof.
  destruct (exit_status_zero length (Ok g3) w_fresh)
    as (G & F & HG & _ & _ & _ & HF & Hlen & _).
  - vm_compute. reflexivity.
  - injection HG as <-. exists F. split; [exact HF|exact Hlen].
Defined.

Lemma writable_after_write (fs0 : filesystem) (c : content) :
  writable (<[OUTPUT_FILE := File c]> (dirs_from [] OUTPUT_DIR fs0)) = true.
Proof.
  unfold writable. apply andb_true_iff. split.
  - apply forallb_forall. intros q Hq.
    apply list_elem_of_In, elem_of_prefixes in Hq as (k & Hk & ->).
    pose proof (dirs_from_prefix [] OUTPUT_DIR fs0 k Hk) as Hd.
    rewrite app_nil_l in Hd.
    unfold is_file. rewrite lookup_insert_ne.
    + by rewrite Hd.
    + intros Heq. apply (f_equal length) in Heq.
      rewrite length_take in Heq. simpl in Heq. lia.
  - unfold isdir. by rewrite lookup_insert_eq.
Qed.

Lemma rewrite_same_place (fs0 : filesystem) (c1 c2 : content) :
  <[OUTPUT_FILE := File c2]>
    (dirs_from [] OUTPUT_DIR (<[OUTPUT_FILE := File c1]> (dirs_from [] OUTPUT_DIR fs0)))
  = <[OUTPUT_FILE := File c2]> (dirs_from [] OUTPUT_DIR fs0).
Proof.
  apply map_eq. intros q. destruct (decide (q = OUTPUT_FILE)) as [->|Hq].
  - by rewrite !lookup_insert_eq.
  - rewrite !lookup_insert_ne by done.
    destruct (decide (q ∈ prefixes OUTPUT_DIR)) as [Hp|Hp].
    + apply elem_of_prefixes in Hp as (k & Hk & ->).
      pose proof (fun fs' => dirs_from_prefix [] OUTPUT_DIR fs' k Hk) as Hd.
      setoid_rewrite app_nil_l in Hd. by rewrite !Hd.
    + rewrite dirs_from_other.
      * by rewrite lookup_insert_ne.
      * intros k Hk ->. apply Hp, elem_of_prefixes. by exists k.
Qed.

(** X8.  A run leaves a file system on which the next run can write,
    and the file system after a second run is the one a single run on
    the second graph gives: the earlier output is replaced whole and
    the directories stay as they are. *)
Theorem rerun_replaces_output
    (geojson_size : list Feature → nat) (G1 G2 : Graph) (w : World) :
  nodes G1 ≠ [] → edges G1 ≠ [] → nodes G2 ≠ [] → edges G2 ≠ [] →
  writable (fs w) = true →
  let w1 := (fetch_streets geojson_size (Ok G1) w).1 in
  writable (fs w1) = true
  ∧ fs (fetch_streets geojson_size (Ok G2) w1).1
    = fs (fetch_streets geojson_size (Ok G2) w).1.
Proof.
  intros Hn1 He1 Hn2 He2 Hw w1.
  assert (fs w1 = <[OUTPUT_FILE := File (FeatureCollection
                        (out_feature (out_cols (edges G1)) <$> edges G1))]>
                    (dirs_from [] OUTPUT_DIR (fs w))) as Hfs1.
  { unfold w1. by apply fetch_streets_fs. }
  assert (writable (fs w1) = true) as Hw1.
  { rewrite Hfs1. apply writable_after_write. }
  split; [done|].
  rewrite !fetch_streets_fs by done. rewrite Hfs1. apply rewrite_same_place.
Qed.

Lemma rerun_replaces_output_witness :
  fs (fetch_streets length (Ok g_plain) (fetch_streets length (Ok g3) w_fresh).1).1
  = fs (fetch_streets length (Ok g_plain) w_fresh).1.
Proof.
  apply (rerun_replaces_output length g3 g_plain w_fresh);
    (discriminate || reflexivity).
Defined.

(** ** What the output depends on *)

Lemma filter_ext_elem {A} (P Q : A → Prop)
    `{!∀ x, Decision (P x), !∀ x, Decision (Q x)} (l : list A) :
  (∀ x, x ∈ l → (P x ↔ Q x)) → filter P l = filter Q l.
Proof.
  induction l as [|a l IH]; intros Hpq; [done|].
  rewrite !filter_cons. rewrite IH by (intros x Hx; apply Hpq; by right).
  destruct (decide (P a)) as [Hp|Hp], (decide (Q a)) as [Hq|Hq]; try done.
  - exfalso. apply Hq, (Hpq a); [by left|done].
  - exfalso. apply Hp, (Hpq a); [by left|done].
Qed.

Lemma elem_of_attr_cols c : c ∈ attr_cols ↔ c ∈ keep_cols ∧ c ≠ "geometry".
Proof.
  unfold attr_cols. split.
  - intros H. apply list_elem_of_filter in H. tauto.
  - intros H. apply list_elem_of_filter. tauto.
Qed.

Lemma edge_columns_agree es1 es2 c :
  Forall2 (fun e1 e2 => Forall (fun c => edge_data e1 !! c = edge_data e2 !! c) attr_cols)
    es1 es2 →
  c ∈ keep_cols → c ∈ edge_columns es1 → c ∈ edge_columns es2.
Proof.
  intros Hall Hk. rewrite !elem_of_edge_columns.
  intros [->|(e1 & Hin & Hsome)]; [by left|].
  destruct (decide (c = "geometry")) as [->|Hg]; [by left|]. right.
  apply list_elem_of_lookup_1 in Hin as [i Hi].
  destruct (Forall2_lookup_l _ _ _ _ _ Hall Hi) as (e2 & Hi2 & Hagree).
  exists e2. split; [by eapply list_elem_of_lookup_2|].
  rewrite Forall_forall in Hagree. rewrite <- Hagree; [done|].
  by apply elem_of_attr_cols.
Qed.

Lemma out_cols_agree es1 es2 :
  Forall2 agree_on_kept es1 es2 → out_cols es1 = out_cols es2.
Proof.
  intros Hall. unfold out_cols. apply filter_ext_elem. intros c Hc. split.
  - apply edge_columns_agree; [|done].
    eapply Forall2_impl; [exact Hall|]. by intros e1 e2 [_ ?].
  - apply edge_columns_agree; [|done]. apply Forall2_flip.
    eapply Forall2_impl; [exact Hall|]. intros e1 e2 [_ Hag]. cbn [flip].
    eapply Forall_impl; [exact Hag|]. by intros c' ->.
Qed.

Lemma out_feature_agree cols e1 e2 :
  (∀ c, c ∈ cols → c ∈ keep_cols) → agree_on_kept e1 e2 →
  out_feature cols e1 = out_feature cols e2.
Proof.
  intros Hsub [Hg Hag]. unfold out_feature. f_equal; [done|].
  apply list_fmap_ext. intros i c Hc.
  apply list_elem_of_lookup_2, list_elem_of_filter in Hc as [Hne Hc].
  rewrite Forall_forall in Hag. unfold cell.
  rewrite (Hag c); [done|]. apply elem_of_attr_cols. split; [by apply Hsub|done].
Qed.

Lemma out_features_agree es1 es2 :
  Forall2 agree_on_kept es1 es2 →
  out_feature (out_cols es1) <$> es1 = out_feature (out_cols es2) <$> es2.
Proof.
  intros Hall. rewrite <- (out_cols_agree _ _ Hall).
  assert (∀ c, c ∈ out_cols es1 → c ∈ keep_cols) as Hsub.
  { intros c Hc. apply list_elem_of_filter in Hc. tauto. }
  revert Hsub. generalize (out_cols es1). intros cols Hsub.
  induction Hall as [|e1 e2 l1 l2 Hag _ IH]; [done|].
  rewrite !fmap_cons, IH. f_equal. by apply out_feature_agree.
Qed.

(** X9.  The written file depends on the edges only through their
    geometry and the values of the preferred attributes: two graphs
    whose edges agree on these, whatever their other attributes, edge
    keys, node lists and the prior file systems, give the same file. *)
Theorem output_ignores_other_attributes
    (geojson_size : list Feature → nat) (G1 G2 : Graph) (w1 w2 : World) :
  Forall2 agree_on_kept (edges G1) (edges G2) →
  nodes G1 ≠ [] → nodes G2 ≠ [] → edges G1 ≠ [] →
  writable (fs w1) = true → writable (fs w2) = true →
  ∃ F, fs (fetch_streets geojson_size (Ok G1) w1).1 !! OUTPUT_FILE
       = Some (File (FeatureCollection F))
    ∧ fs (fetch_streets geojson_size (Ok G2) w2).1 !! OUTPUT_FILE
      = Some (File (FeatureCollection F)).
Proof.
  intros Hall Hn1 Hn2 He1 Hw1 Hw2.
  assert (edges G2 ≠ []) as He2.
  { intros Hnil. rewrite Hnil in Hall. apply Forall2_nil_inv_r in Hall. done. }
  eexists. split; [by apply fetch_streets_file|].
  rewrite fetch_streets_file by done. by rewrite (out_features_agree _ _ Hall).
Qed.

Lemma output_ignores_other_attributes_witness :
  ∃ F, fs (fetch_streets length (Ok g3) w_fresh).1 !! OUTPUT_FILE
       = Some (File (FeatureCollection F))
    ∧ fs (fetch_streets length (Ok g3_other) w_old).1 !! OUTPUT_FILE
      = Some (File (FeatureCollection F)).
Proof.
  apply (output_ignores_other_attributes length g3 g3_other w_fresh w_old);
    try (discriminate || reflexivity).
  unfold g3, g3_other. cbn [edges].
  repeat (constructor; [split; [reflexivity|repeat constructor]|]).
  constructor.
Defined.

Lemma prop_out_feature cols e k :
  prop (out_feature cols e) k
  = if decide (k ∈ cols ∧ k ≠ "geometry")
    then Some (flatten_value (cell (edge_data e) k)) else None.
Proof.
  unfold prop, out_feature. cbn [properties].
  rewrite (lookup_list_to_map_graph (fun c => flatten_value (cell (edge_data e) c))).
  destruct (decide (k ∈ filter _ cols)) as [Hin|Hni].
  - apply list_elem_of_filter in Hin. rewrite decide_True; [done|]. tauto.
  - rewrite decide_False; [done|]. intros [? ?]. apply Hni.
    apply list_elem_of_filter. tauto.
Qed.

(** X10.  A preferred attribute that some edge carries is a column of
    the output, and every feature has it as a property: the flattened
    value of its edge, null for an edge that lacks the attribute.  A
    preferred attribute that no edge carries is no column, and no
    feature has it as a property at all. *)
Theorem attribute_on_every_feature_or_none (G : Graph) (c : string) :
  c ∈ attr_cols →
  ∃ S, streets_of (edges_table G) = Ok S
    ∧ ((∃ e, e ∈ edges G ∧ is_Some (edge_data e !! c)) →
       c ∈ columns S
       ∧ ∀ i e, edges G !! i = Some e →
           ∃ f, to_features S !! i = Some f
                ∧ prop f c = Some (flatten_value (cell (edge_data e) c)))
    ∧ ((∀ e, e ∈ edges G → edge_data e !! c = None) →
       (c ∉ columns S) ∧ ∀ f, f ∈ to_features S → prop f c = None).
Proof.
  intros [Hk Hg]%elem_of_attr_cols. exists (streets_table G).
  split; [apply streets_of_edges_table|]. rewrite to_features_streets_table.
  cbn [columns streets_table]. split.
  - intros Hsome.
    assert (c ∈ out_cols (edges G)) as Hin.
    { apply list_elem_of_filter. split; [|done]. apply elem_of_edge_columns. by right. }
    split; [done|]. intros i e Hi. eexists. rewrite list_lookup_fmap, Hi.
    split; [done|]. rewrite prop_out_feature. by rewrite decide_True.
  - intros Hnone.
    assert (c ∉ out_cols (edges G)) as Hni.
    { intros Hin. apply list_elem_of_filter in Hin as [Hin _].
      apply elem_of_edge_columns in Hin as [?|(e & He & Hs)]; [done|].
      rewrite (Hnone e He) in Hs. by destruct Hs. }
    split; [done|]. intros f (e & -> & _)%list_elem_of_fmap.
    rewrite prop_out_feature. rewrite decide_False; [done|]. tauto.
Qed.

Lemma attribute_on_every_feature_or_none_witness :
  ∃ S, streets_of (edges_table g3) = Ok S
    ∧ (∃ f, to_features S !! 2 = Some f ∧ prop f "highway" = Some VNull)
    ∧ (∀ f, f ∈ to_features S → prop f "name" = None).
Proof.
  destruct (attribute_on_every_feature_or_none g3 "highway") as (S & HS & Hsome & _);
    [vm_compute; do 3 constructor|].
  destruct (attribute_on_every_feature_or_none g3 "name") as (S' & HS' & _ & Hnone);
    [vm_compute; do 2 constructor|].
  rewrite HS in HS'. injection HS' as <-.
  exists S. split; [exact HS|]. split.
  - destruct Hsome as [_ Hall].
    + exists e12. split; [by left|]. by eexists.
    + apply (Hall 2 e31). reflexivity.
  - apply Hnone. intros e He. clear -He.
    repeat (apply elem_of_cons in He as [->|He]; [reflexivity|]).
    apply elem_of_nil in He. destruct He.
Defined.

(** ** The totals of the breakdown *)

Lemma length_filter_fmap {A B} (f : A → B) (P : B → Prop)
    `{!∀ x, Decision (P x)} (l : list A) :
  length (filter P (f <$> l)) = length (filter (fun a => P (f a)) l).
Proof.
  induction l as [|a l IH]; [done|]. rewrite fmap_cons.
  rewrite (filter_cons P), (filter_cons (fun a => P (f a))).
  destruct (decide (P (f a))); cbn [length]; by rewrite IH.
Qed.

Lemma sum_counts_bump v acc :
  sum_list ((bump v acc).*2) = S (sum_list (acc.*2)).
Proof.
  induction acc as [|[w n] acc IH]; [done|]. cbn [bump].
  destruct (same_key w v); cbn [fmap list_fmap snd sum_list_with id].
  - done.
  - change (list_fmap _ _ snd (bump v acc)) with ((bump v acc).*2).
    rewrite IH. change (list_fmap _ _ snd acc) with (acc.*2). lia.
Qed.

Lemma sum_counts_foldl s acc :
  sum_list ((foldl (fun acc v => bump v acc) acc s).*2)
  = sum_list (acc.*2) + length s.
Proof.
  revert acc. induction s as [|v s IH]; intros acc; cbn [foldl length]; [lia|].
  rewrite IH, sum_counts_bump. lia.
Qed.

Lemma sum_value_counts s :
  sum_list ((value_counts s).*2) = length (filter (fun v => isna v = false) s).
Proof.
  unfold value_counts. rewrite sort_desc_Permutation.
  unfold tally. by rewrite sum_counts_foldl.
Qed.

Lemma line_count_types counts :
  sum_list (line_count <$> (uncurry LType <$> counts)) = sum_list (counts.*2).
Proof.
  induction counts as [|[v n] counts IH]; [done|].
  rewrite !fmap_cons. cbn [sum_list_with uncurry line_count id snd]. by rewrite IH.
Qed.

(** X11.  On a run that writes its file, the counts of the breakdown
    lines add up to the number of edges whose flattened [highway]
    value is not missing, which is at most the number of segments the
    run reports as written; without a [highway] column both are 0. *)
Theorem breakdown_counts_add_up
    (geojson_size : list Feature → nat) (G : Graph) (w : World) :
  nodes G ≠ [] → edges G ≠ [] → writable (fs w) = true →
  ∃ w' tail,
    fetch_streets geojson_size (Ok G) w = (w', Ok tt)
    ∧ stdout w'
      = stdout w
        ++ summary_lines G (geojson_size (out_feature (out_cols (edges G)) <$> edges G))
        ++ tail
    ∧ sum_list (line_count <$> tail)
      = length (filter (fun e => isna (flatten_value (cell (edge_data e) "highway")) = false)
                  (edges G))
    ∧ sum_list (line_count <$> tail) ≤ number_of_edges G.
Proof.
  intros Hn He Hw.
  assert (∀ n, n = length (filter
                 (fun e => isna (flatten_value (cell (edge_data e) "highway")) = false)
                 (edges G)) → n ≤ number_of_edges G) as Hle.
  { intros n ->. apply length_filter. }
  rewrite fetch_streets_written by done. unfold written. cbv zeta.
  rewrite to_features_streets_table.
  destruct (decide ("highway" ∈ columns (streets_table G))) as [Hin|Hni].
  - rewrite (breakdown_present _ _ Hin). cbn [fs stdout].
    eexists _, (LStreetTypes
                  :: (uncurry LType <$> value_counts (getitem "highway" (streets_table G)))).
    split; [done|]. split; [by rewrite <- (assoc_L (++))|].
    assert (sum_list (line_count <$> LStreetTypes
                        :: (uncurry LType <$> value_counts (getitem "highway" (streets_table G))))
            = length (filter
                 (fun e => isna (flatten_value (cell (edge_data e) "highway")) = false)
                 (edges G))) as Hsum.
    { rewrite fmap_cons. cbn [sum_list_with line_count id]. rewrite Nat.add_0_l.
      rewrite line_count_types, sum_value_counts.
      rewrite getitem_streets_table by done. apply length_filter_fmap. }
    split; [done|]. by apply Hle.
  - rewrite (breakdown_absent _ _ Hni). eexists _, [].
    split; [done|]. cbn [fs stdout]. split; [by rewrite app_nil_r|].
    assert (sum_list (line_count <$> [])
            = length (filter
                 (fun e => isna (flatten_value (cell (edge_data e) "highway")) = false)
                 (edges G))) as Hsum.
    { cbn [fmap list_fmap sum_list_with].
      assert (Forall (fun e => edge_data e !! "highway" = None) (edges G)) as Hnone.
      { apply Forall_forall. intros e Hin.
        destruct (edge_data e !! "highway") as [v|] eqn:Hv; [|done].
        exfalso. apply Hni. apply list_elem_of_filter. split; [|compute_done].
        apply elem_of_edge_columns. right. exists e. split; [done|].
        by rewrite Hv. }
      clear -Hnone. induction Hnone as [|e es He _ IH]; [done|].
      rewrite filter_cons, decide_False; [exact IH|].
      unfold cell. by rewrite He. }
    split; [done|]. by apply Hle.
Qed.

Lemma breakdown_counts_add_up_witness :
  ∃ w' tail,
    fetch_streets length (Ok g3) w_fresh = (w', Ok tt)
    ∧ sum_list (line_count <$> tail) = 2
    ∧ stdout w' = summary_lines g3 3 ++ tail.
Proof.
  destruct (breakdown_counts_add_up length g3 w_fresh)
    as (w' & tail & Hrun & Hout & Hsum & _);
    [discriminate|discriminate|reflexivity|].
  exists w', tail. split; [exact Hrun|]. split.
  - rewrite Hsum. reflexivity.
  - rewrite Hout. reflexivity.
Defined.
